(** * etl2: chunk assembly and batched persistence

    A shallow embedding of [src/chunk_generator.py] (class [ChunkGenerator])
    and [src/database_writer.py] (class [DatabaseWriter]), followed by the
    properties of the two components.

    Conventions.
    - A Python [str] is a [string]; a character is an [ascii], standing for
      the code points 0..255.
    - A Python [int] is a [Z].
    - A Python [dict] read through a fixed set of keys is a record whose
      fields are [option pyval]: [None] is a missing key.
    - A raised exception is the [Raise] case of [result]. *)

From Stdlib Require Import ZArith List Bool Ascii String Lia.
Import ListNotations.

Open Scope string_scope.
Open Scope Z_scope.

(** ** Python strings *)

Module PyStr.

(** [str.isspace] on one character, for code points up to 255: TAB, LF, VT,
    FF, CR, the separators FS, GS, RS, US, SPACE, NEL and NBSP. *)
Definition isspace (c : ascii) : bool :=
  let n := nat_of_ascii c in
  ((9 <=? n) && (n <=? 13))%nat
  || ((28 <=? n) && (n <=? 32))%nat
  || (n =? 133)%nat
  || (n =? 160)%nat.

(** The word under construction is emitted when it is not empty. *)
Definition flush (cur : string) : list string :=
  match cur with
  | EmptyString => []
  | _ => [cur]
  end.

(** The scan behind [str.split()] without arguments: runs of whitespace
    separate the words, no empty word is produced. [cur] is the word read
    so far. *)
Fixpoint split_from (cur : string) (s : string) : list string :=
  match s with
  | EmptyString => flush cur
  | String c s' =>
      if isspace c
      then (flush cur ++ split_from EmptyString s')%list
      else split_from (cur ++ String c EmptyString) s'
  end.

(** [text.split()] *)
Definition split (s : string) : list string := split_from EmptyString s.

(** [sep.join(parts)] for a list of [str] *)
Definition join (sep : string) (parts : list string) : string :=
  String.concat sep parts.

(** [s[:n]] on a [str], for a literal [n >= 0] *)
Definition str_prefix (n : nat) (s : string) : string := substring 0 n s.

(** [l[:k]] on a list: a negative [k] counts from the end. *)
Definition list_prefix {A : Type} (l : list A) (k : Z) : list A :=
  if 0 <=? k
  then firstn (Z.to_nat k) l
  else firstn (Z.to_nat (Z.of_nat (List.length l) + k)) l.

(** [l.append(x)] *)
Definition list_append {A : Type} (l : list A) (x : A) : list A :=
  (l ++ [x])%list.

(** [len(l)] *)
Definition len {A : Type} (l : list A) : Z := Z.of_nat (List.length l).

(** A word as [split] produces them: not empty, no whitespace inside. *)
Fixpoint no_space (s : string) : bool :=
  match s with
  | EmptyString => true
  | String c s' => negb (isspace c) && no_space s'
  end.

Definition is_word (w : string) : Prop :=
  w <> EmptyString /\ no_space w = true.

End PyStr.

(** ** Python values and exceptions *)

(** The values a field of a post or of a comment holds: [None], a [str], or
    another object that is neither a [str] nor subscriptable (an [int], a
    [datetime], a [Decimal]), kept as its [str()] rendering and its truth
    value. *)
Inductive pyval : Type :=
| VNone
| VStr (s : string)
| VObj (repr : string) (truth : bool).

(** [bool(v)] *)
Definition truthy (v : pyval) : bool :=
  match v with
  | VNone => false
  | VStr s => negb (s =? "")%string
  | VObj _ t => t
  end.

(** The text a replacement field [{v}] of an f-string yields. *)
Definition fmt (v : pyval) : string :=
  match v with
  | VNone => "None"
  | VStr s => s
  | VObj r _ => r
  end.

(** [d.get(k, default)] on the field holding key [k] *)
Definition get_or (field : option pyval) (default : pyval) : pyval :=
  match field with
  | Some v => v
  | None => default
  end.

(** [d.get(k)] *)
Definition get (field : option pyval) : pyval := get_or field VNone.

Inductive exn : Type :=
| TypeError
| Psycopg2Error.

Inductive result (A : Type) : Type :=
| Ok (a : A)
| Raise (e : exn).

Arguments Ok {A} a.
Arguments Raise {A} e.

Definition bind {A B : Type} (m : result A) (k : A -> result B) : result B :=
  match m with
  | Ok a => k a
  | Raise e => Raise e
  end.

Declare Scope result_scope.
Delimit Scope result_scope with result.
Notation "x <- m ;; k" := (bind m (fun x => k))
  (at level 61, m at next level, right associativity) : result_scope.
Open Scope result_scope.

Definition is_ok {A : Type} (m : result A) : bool :=
  match m with
  | Ok _ => true
  | Raise _ => false
  end.

(** ** chunk_generator.py *)

Module ChunkGenerator.
Import PyStr.

(** The keys of a post that [generate_chunk] reads. *)
Record post : Type := {
  post_id : option pyval;
  timestamp : option pyval;
  author : option pyval;
  title : option pyval;
  post_texts : option pyval
}.

(** The keys of a comment: [generate_chunk] reads [comment_texts] only. *)
Record comment : Type := {
  comment_id : option pyval;
  comment_texts : option pyval
}.

(** The dictionary [generate_chunk] returns. *)
Record chunk : Type := {
  chunk_post_id : pyval;
  chunk_timestamp : pyval;
  full_chunk : string;
  engagement_score : Z
}.

(** [comment.get('comment_texts', '')] *)
Definition comment_text (c : comment) : pyval :=
  get_or (comment_texts c) (VStr "").

(** [DELIMITER]: blank line, rule, blank line. *)
Definition NL : string := String (ascii_of_nat 10) EmptyString.
Definition DELIMITER : string := NL ++ NL ++ "---" ++ NL ++ NL.

(** [v[:5]]: defined on a [str], a [TypeError] on the other values. *)
Definition slice5 (v : pyval) : result string :=
  match v with
  | VStr s => Ok (str_prefix 5 s)
  | _ => Raise TypeError
  end.

(** Line 47:
    [(post.get('author', '')[:5]) if post.get('author') else ''] *)
Definition author_prefix (p : post) : result string :=
  if truthy (get (author p))
  then slice5 (get_or (author p) (VStr ""))
  else Ok "".

(** Lines 48-52, the metadata line for an author prefix [ap]. *)
Definition metadata (p : post) (ap : string) : string :=
  "metadata: [Post_id: " ++ fmt (get_or (post_id p) (VStr "")) ++ " | "
  ++ "Timestamp: " ++ fmt (get_or (timestamp p) (VStr "")) ++ " | "
  ++ "Author: " ++ ap ++ "]".

(** Lines 56-58 *)
Definition add_title (p : post) (components : list string) : list string :=
  if truthy (get (title p))
  then list_append components ("Title: " ++ fmt (get (title p)))
  else components.

(** Lines 61-63 *)
Definition add_question (p : post) (components : list string) : list string :=
  if truthy (get (post_texts p))
  then list_append components
             ("Question (priority 1): " ++ fmt (get (post_texts p)))
  else components.

(** Lines 66-70: [comments and len(comments) > 0], then [comments[0]]. *)
Definition add_important_answer (comments : list comment)
    (components : list string) : list string :=
  match comments with
  | [] => components
  | c0 :: _ =>
      if len comments >? 0
      then
        let first_comment := comment_text c0 in
        if truthy first_comment
        then list_append components
               ("Important answer (priority 2): " ++ fmt first_comment)
        else components
      else components
  end.

(** Lines 74-78, the loop over [comments[1:]]. *)
Definition other_texts (rest : list comment) : list pyval :=
  fold_left
    (fun other_comments_texts c =>
       let text := comment_text c in
       if truthy text
       then list_append other_comments_texts text
       else other_comments_texts)
    rest [].

(** [sep.join(items)]: every item has to be a [str]. *)
Fixpoint strs_of (items : list pyval) : result (list string) :=
  match items with
  | [] => Ok []
  | VStr s :: items' => ss <- strs_of items' ;; Ok (s :: ss)
  | _ :: _ => Raise TypeError
  end.

Definition join_vals (sep : string) (items : list pyval) : result string :=
  ss <- strs_of items ;; Ok (join sep ss).

(** Lines 73-84 *)
Definition add_other_comments (comments : list comment)
    (components : list string) : result (list string) :=
  match comments with
  | [] => Ok components
  | _ :: rest =>
      if len comments >? 1
      then
        let other_comments_texts := other_texts rest in
        match other_comments_texts with
        | [] => Ok components
        | _ :: _ =>
            other_comments_concat <- join_vals DELIMITER other_comments_texts ;;
            Ok (list_append components
                  ("Other comments (priority 3): " ++ other_comments_concat))
        end
      else Ok components
  end.

(** Lines 44-84: the list [components] when line 87 is reached. *)
Definition build_components (p : post) (comments : list comment)
    : result (list string) :=
  let components := [] in
  ap <- author_prefix p ;;
  let components := list_append components (metadata p ap) in
  let components := add_title p components in
  let components := add_question p components in
  let components := add_important_answer comments components in
  add_other_comments comments components.

(** Line 87 *)
Definition full_text (p : post) (comments : list comment) : result string :=
  components <- build_components p comments ;;
  Ok (join DELIMITER components).

(** Lines 104-129 *)
Definition _truncate_to_words (text : string) (max_words : Z) : string :=
  if (text =? "")%string then ""
  else
    let words := split text in
    if len words <=? max_words then text
    else
      let truncated_words := list_prefix words max_words in
      join " " truncated_words.

(** Lines 28-102, for a generator built with [chunk_size]. *)
Definition generate_chunk (chunk_size : Z) (p : post)
    (comments : list comment) : result chunk :=
  text <- full_text p comments ;;
  let truncated_chunk := _truncate_to_words text chunk_size in
  let engagement_score := len comments in
  Ok {| chunk_post_id := get (post_id p);
        chunk_timestamp := get (timestamp p);
        full_chunk := truncated_chunk;
        engagement_score := engagement_score |}.

(** Lines 131-152: [except Exception] catches what [generate_chunk]
    raises, and the loop goes on. *)
Definition generate_chunks_batch (chunk_size : Z)
    (posts_with_comments : list (post * list comment)) : list chunk :=
  fold_left
    (fun chunks pc =>
       match generate_chunk chunk_size (fst pc) (snd pc) with
       | Ok c => list_append chunks c
       | Raise _ => chunks
       end)
    posts_with_comments [].

(** When the assembly of one post raises: a truthy author that is not a
    [str], or a truthy comment text after the first that is not a [str]. *)
Definition is_str (v : pyval) : bool :=
  match v with
  | VStr _ => true
  | _ => false
  end.

Definition bad_author (p : post) : bool :=
  truthy (get (author p)) && negb (is_str (get (author p))).

Definition bad_comment (c : comment) : bool :=
  truthy (comment_text c) && negb (is_str (comment_text c)).

Definition assembly_fails (p : post) (comments : list comment) : bool :=
  bad_author p || existsb bad_comment (tl comments).

(** The sections of the text, in the order of the components. *)
Inductive section : Type :=
| Metadata
| Title
| Question
| ImportantAnswer
| OtherComments.

(** The label a section starts with. *)
Definition label (s : section) : string :=
  match s with
  | Metadata => "metadata: ["
  | Title => "Title: "
  | Question => "Question (priority 1): "
  | ImportantAnswer => "Important answer (priority 2): "
  | OtherComments => "Other comments (priority 3): "
  end.

(** The datum a section depends on is truthy. *)
Definition present (p : post) (comments : list comment) (s : section) : bool :=
  match s with
  | Metadata => true
  | Title => truthy (get (title p))
  | Question => truthy (get (post_texts p))
  | ImportantAnswer =>
      match comments with
      | [] => false
      | c0 :: _ => truthy (comment_text c0)
      end
  | OtherComments => existsb (fun c => truthy (comment_text c)) (tl comments)
  end.

Definition all_sections : list section :=
  [Metadata; Title; Question; ImportantAnswer; OtherComments].

Definition section_eqb (a b : section) : bool :=
  match a, b with
  | Metadata, Metadata
  | Title, Title
  | Question, Question
  | ImportantAnswer, ImportantAnswer
  | OtherComments, OtherComments => true
  | _, _ => false
  end.

(** The text of a section, given the author prefix [ap] of the metadata
    line and the joined texts [oc] of the comments after the first. *)
Definition section_text (p : post) (comments : list comment)
    (ap oc : string) (s : section) : string :=
  match s with
  | Metadata => metadata p ap
  | Title => "Title: " ++ fmt (get (title p))
  | Question => "Question (priority 1): " ++ fmt (get (post_texts p))
  | ImportantAnswer =>
      "Important answer (priority 2): "
      ++ match comments with
         | c0 :: _ => fmt (comment_text c0)
         | [] => ""
         end
  | OtherComments => "Other comments (priority 3): " ++ oc
  end.

(** The author prefix and the joined other comments of a call that does
    not raise. *)
Definition author_field (p : post) : string :=
  match author_prefix p with
  | Ok ap => ap
  | Raise _ => ""
  end.

Definition other_concat (comments : list comment) : string :=
  match join_vals DELIMITER (other_texts (tl comments)) with
  | Ok oc => oc
  | Raise _ => ""
  end.

(** A section that is there or not. *)
Definition opt_section (b : bool) (text : string) : list string :=
  if b then [text] else [].

(** The same post with one key left out. *)
Definition without_title (p : post) : post :=
  {| post_id := post_id p;
     timestamp := timestamp p;
     author := author p;
     title := None;
     post_texts := post_texts p |}.

Definition without_post_texts (p : post) : post :=
  {| post_id := post_id p;
     timestamp := timestamp p;
     author := author p;
     title := title p;
     post_texts := None |}.

(** What [generate_chunks_batch] keeps of one pair. *)
Definition chunk_or_skip (chunk_size : Z) (pc : post * list comment)
    : list chunk :=
  match generate_chunk chunk_size (fst pc) (snd pc) with
  | Ok c => [c]
  | Raise _ => []
  end.

End ChunkGenerator.

(** ** database_writer.py *)

Module DatabaseWriter.
Import PyStr.

Definition chunk : Type := ChunkGenerator.chunk.

(** *** The write port

    The psycopg2 connection and its cursor, as the writer sees them: the
    rows of [facebook_chunks] that are durable, the rows the open
    transaction has inserted, and the calls made so far, oldest first. *)
Inductive event : Type :=
| Execute (c : chunk) (ok : bool)
| Commit (ok : bool)
| Rollback
| Close
| RollbackRefused.

Record connection : Type := {
  committed : list chunk;
  pending : list chunk;
  log : list event
}.

Definition record_event (k : connection) (e : event) : connection :=
  {| committed := committed k;
     pending := pending k;
     log := list_append (log k) e |}.

(** *** The writer object *)
Record writer : Type := {
  batch_commit_size : Z;
  conn : connection;
  insert_count : Z;
  total_inserted : Z;
  total_failed : Z
}.

Definition set_conn (k : connection) (w : writer) : writer :=
  {| batch_commit_size := batch_commit_size w;
     conn := k;
     insert_count := insert_count w;
     total_inserted := total_inserted w;
     total_failed := total_failed w |}.

Definition set_insert_count (n : Z) (w : writer) : writer :=
  {| batch_commit_size := batch_commit_size w;
     conn := conn w;
     insert_count := n;
     total_inserted := total_inserted w;
     total_failed := total_failed w |}.

Definition set_total_inserted (n : Z) (w : writer) : writer :=
  {| batch_commit_size := batch_commit_size w;
     conn := conn w;
     insert_count := insert_count w;
     total_inserted := n;
     total_failed := total_failed w |}.

Definition set_total_failed (n : Z) (w : writer) : writer :=
  {| batch_commit_size := batch_commit_size w;
     conn := conn w;
     insert_count := insert_count w;
     total_inserted := total_inserted w;
     total_failed := n |}.

(** Lines 16-31, [__init__], followed by [connect] to an empty table. *)
Definition init (batch_commit_size : Z) : writer :=
  {| batch_commit_size := batch_commit_size;
     conn := {| committed := []; pending := []; log := [] |};
     insert_count := 0;
     total_inserted := 0;
     total_failed := 0 |}.

(** *** Methods: the writer is threaded through, an exception leaves the
    writer as it was when raised. *)
Definition M (A : Type) : Type := writer -> writer * result A.

Definition ret {A : Type} (a : A) : M A := fun w => (w, Ok a).

Definition raise {A : Type} (e : exn) : M A := fun w => (w, Raise e).

Definition mbind {A B : Type} (m : M A) (k : A -> M B) : M B :=
  fun w =>
    match m w with
    | (w', Ok a) => k a w'
    | (w', Raise e) => (w', Raise e)
    end.

(** [try: body except psycopg2.Error: handler] *)
Definition try_except {A : Type} (body : M A) (handler : M A) : M A :=
  fun w =>
    match body w with
    | (w', Raise Psycopg2Error) => handler w'
    | r => r
    end.

Definition modify (f : writer -> writer) : M unit := fun w => (f w, Ok tt).

Declare Scope writer_scope.
Delimit Scope writer_scope with writer.
Notation "x <- m ;; k" := (mbind m (fun x => k))
  (at level 61, m at next level, right associativity) : writer_scope.
Notation "m ;; k" := (mbind m (fun _ => k))
  (at level 61, right associativity) : writer_scope.

(** The statistics [insert_chunks_batch] returns. *)
Record stats : Type := {
  total : Z;
  success : Z;
  failed : Z
}.

Section Port.

(** What the database answers: whether the INSERT of a row is accepted and
    whether a COMMIT goes through, each as a function of the connection,
    whose [log] holds every earlier call. *)
Variable execute_ok : connection -> chunk -> bool.
Variable commit_ok : connection -> bool.

(** [self.cursor.execute(insert_query, (...))] *)
Definition cursor_execute (c : chunk) : M unit :=
  fun w =>
    let k := conn w in
    if execute_ok k c
    then (set_conn {| committed := committed k;
                      pending := list_append (pending k) c;
                      log := list_append (log k) (Execute c true) |} w,
          Ok tt)
    else (set_conn (record_event k (Execute c false)) w, Raise Psycopg2Error).

(** [self.connection.commit()] *)
Definition connection_commit : M unit :=
  fun w =>
    let k := conn w in
    if commit_ok k
    then (set_conn {| committed := (committed k ++ pending k)%list;
                      pending := [];
                      log := list_append (log k) (Commit true) |} w,
          Ok tt)
    else (set_conn (record_event k (Commit false)) w, Raise Psycopg2Error).

(** [self.connection.rollback()]: the open transaction is dropped. Here
    the call always goes through; [RollbackPort] below has the writer over
    a connection whose rollback can raise as well. *)
Definition connection_rollback : M unit :=
  modify (fun w =>
    let k := conn w in
    set_conn {| committed := committed k;
                pending := [];
                log := list_append (log k) Rollback |} w).

(** [self.cursor.close()] and [self.connection.close()]: what was not
    committed is lost. *)
Definition connection_close : M unit :=
  modify (fun w =>
    let k := conn w in
    set_conn {| committed := committed k;
                pending := [];
                log := list_append (log k) Close |} w).

Open Scope writer_scope.

(** Lines 142-155 *)
Definition _commit : M unit :=
  try_except
    (connection_commit ;;
     modify (fun w => set_total_inserted (total_inserted w + insert_count w) w) ;;
     modify (set_insert_count 0))
    (connection_rollback ;;
     raise Psycopg2Error).

(** Lines 67-106 *)
Definition insert_chunk (c : chunk) : M bool :=
  try_except
    (cursor_execute c ;;
     modify (fun w => set_insert_count (insert_count w + 1) w) ;;
     (fun w =>
        if insert_count w >=? batch_commit_size w
        then _commit w
        else ret tt w) ;;
     ret true)
    (connection_rollback ;;
     modify (fun w => set_total_failed (total_failed w + 1) w) ;;
     ret false).

(** Lines 123-127, the loop of [insert_chunks_batch]. *)
Fixpoint insert_loop (chunks : list chunk) (success_count failed_count : Z)
    : M (Z * Z) :=
  match chunks with
  | [] => ret (success_count, failed_count)
  | c :: rest =>
      ok <- insert_chunk c ;;
      if ok
      then insert_loop rest (success_count + 1) failed_count
      else insert_loop rest success_count (failed_count + 1)
  end.

(** Lines 108-140 *)
Definition insert_chunks_batch (chunks : list chunk) : M stats :=
  counts <- insert_loop chunks 0 0 ;;
  (fun w => if insert_count w >? 0 then _commit w else ret tt w) ;;
  ret {| total := len chunks;
         success := fst counts;
         failed := snd counts |}.

(** Lines 55-65 *)
Definition disconnect : M unit :=
  (fun w => if insert_count w >? 0 then _commit w else ret tt w) ;;
  connection_close.

(** Lines 157-167 *)
Definition get_statistics (w : writer) : Z * Z :=
  (total_inserted w, total_failed w).

End Port.

(** *** The writer after each outcome of a port call *)

(** An INSERT went through: the row joins the open transaction and the
    counter is incremented (lines 84-94). *)
Definition executed (w : writer) (c : chunk) : writer :=
  {| batch_commit_size := batch_commit_size w;
     conn := {| committed := committed (conn w);
                pending := list_append (pending (conn w)) c;
                log := list_append (log (conn w)) (Execute c true) |};
     insert_count := insert_count w + 1;
     total_inserted := total_inserted w;
     total_failed := total_failed w |}.

(** An INSERT was refused. *)
Definition execute_refused (w : writer) (c : chunk) : writer :=
  set_conn (record_event (conn w) (Execute c false)) w.

(** A COMMIT went through (lines 147-150). *)
Definition commit_done (w : writer) : writer :=
  {| batch_commit_size := batch_commit_size w;
     conn := {| committed := (committed (conn w) ++ pending (conn w))%list;
                pending := [];
                log := list_append (log (conn w)) (Commit true) |};
     insert_count := 0;
     total_inserted := total_inserted w + insert_count w;
     total_failed := total_failed w |}.

(** A COMMIT was refused. *)
Definition commit_refused (w : writer) : writer :=
  set_conn (record_event (conn w) (Commit false)) w.

(** A ROLLBACK. *)
Definition rolled_back (w : writer) : writer :=
  set_conn {| committed := committed (conn w);
              pending := [];
              log := list_append (log (conn w)) Rollback |} w.

(** [self.total_failed += 1] *)
Definition failure_counted (w : writer) : writer :=
  set_total_failed (total_failed w + 1) w.

(** The connection was closed. *)
Definition closed (w : writer) : writer :=
  set_conn {| committed := committed (conn w);
              pending := [];
              log := list_append (log (conn w)) Close |} w.

(** *** Reading the log *)

(** The rows handed to [execute], in call order. *)
Fixpoint attempts (l : list event) : list chunk :=
  match l with
  | [] => []
  | Execute c _ :: l' => c :: attempts l'
  | _ :: l' => attempts l'
  end.

(** The number of [commit] calls. *)
Fixpoint commits (l : list event) : Z :=
  match l with
  | [] => 0
  | Commit _ :: l' => 1 + commits l'
  | _ :: l' => commits l'
  end.

(** The number of rows the table holds for good. *)
Definition persisted (w : writer) : Z := len (committed (conn w)).

(** What holds of a writer between two calls: the counter is not negative
    and covers the rows of the open transaction. *)
Definition consistent (w : writer) : Prop :=
  len (pending (conn w)) <= insert_count w.

End DatabaseWriter.

(** ** database_writer.py, over a connection whose rollback can raise

    The same methods, on a connection that may also refuse a ROLLBACK,
    as psycopg2 does once the connection is broken. The two [except]
    clauses call [self.connection.rollback()] unguarded (lines 104 and
    154), so what it raises leaves the method. *)

Module RollbackPort.
Import PyStr DatabaseWriter.

Section Port.

Variable execute_ok : connection -> chunk -> bool.
Variable commit_ok : connection -> bool.

(** Whether a ROLLBACK goes through, as a function of the connection. *)
Variable rollback_ok : connection -> bool.

(** [self.connection.rollback()]: the open transaction is dropped, or
    [psycopg2.Error] is raised and the connection is left as it was. *)
Definition connection_rollback : M unit :=
  fun w =>
    if rollback_ok (conn w)
    then DatabaseWriter.connection_rollback w
    else (set_conn (record_event (conn w) RollbackRefused) w,
          Raise Psycopg2Error).

Open Scope writer_scope.

(** Lines 142-155 *)
Definition _commit : M unit :=
  try_except
    (connection_commit commit_ok ;;
     modify (fun w => set_total_inserted (total_inserted w + insert_count w) w) ;;
     modify (set_insert_count 0))
    (connection_rollback ;;
     raise Psycopg2Error).

(** Lines 67-106 *)
Definition insert_chunk (c : chunk) : M bool :=
  try_except
    (cursor_execute execute_ok c ;;
     modify (fun w => set_insert_count (insert_count w + 1) w) ;;
     (fun w =>
        if insert_count w >=? batch_commit_size w
        then _commit w
        else ret tt w) ;;
     ret true)
    (connection_rollback ;;
     modify (fun w => set_total_failed (total_failed w + 1) w) ;;
     ret false).

(** Lines 123-127, the loop of [insert_chunks_batch]: an exception that
    leaves [insert_chunk] ends it. *)
Fixpoint insert_loop (chunks : list chunk) (success_count failed_count : Z)
    : M (Z * Z) :=
  match chunks with
  | [] => ret (success_count, failed_count)
  | c :: rest =>
      ok <- insert_chunk c ;;
      if ok
      then insert_loop rest (success_count + 1) failed_count
      else insert_loop rest success_count (failed_count + 1)
  end.

(** Lines 108-140 *)
Definition insert_chunks_batch (chunks : list chunk) : M stats :=
  counts <- insert_loop chunks 0 0 ;;
  (fun w => if insert_count w >? 0 then _commit w else ret tt w) ;;
  ret {| total := len chunks;
         success := fst counts;
         failed := snd counts |}.

End Port.

(** A ROLLBACK was refused. *)
Definition rollback_refused (w : writer) : writer :=
  set_conn (record_event (conn w) RollbackRefused) w.

(** What the [except] clause of [insert_chunk] (lines 102-106) does from
    [w]: roll back, count the failure and return [False], or let the
    exception of the rollback through. *)
Definition handled (rollback_ok : connection -> bool) (w : writer)
    : writer * result bool :=
  if rollback_ok (conn w)
  then (failure_counted (rolled_back w), Ok false)
  else (rollback_refused w, Raise Psycopg2Error).

End RollbackPort.

(** ** lambda_function.py *)

Module LambdaFunction.
Import PyStr ChunkGenerator DatabaseWriter.

(** What the handler is given by the parts it calls and that are not
    modelled further: the configuration manager, the database reader and
    the two psycopg2 connections.
    - [load_config]: [ConfigManager()], [validate()] and the two getters
      (lines 38-43): the pair [chunk_size], [batch_commit_size], or [None]
      when one of them raises.
    - [reader_connect]: whether [db_reader.connect()] goes through.
    - [verify_tables_exist], [verify_table_exists]: the answers of the two
      checks, which catch their own database errors.
    - [get_all_posts], [get_comments_for_post]: the answers of the reader,
      or the exception it lets through.
    - [writer_connect]: the rows of [facebook_chunks] that the connection
      opened by [db_writer.connect()] finds, or [None] when it raises.
    - [execute_ok], [commit_ok]: the write port, as for the writer. *)
Record environment : Type := {
  load_config : option (Z * Z);
  reader_connect : bool;
  verify_tables_exist : bool;
  get_all_posts : result (list post);
  get_comments_for_post : pyval -> result (list comment);
  writer_connect : option (list chunk);
  verify_table_exists : bool;
  execute_ok : connection -> chunk -> bool;
  commit_ok : connection -> bool
}.

(** The exception whose text the handler reports. *)
Inductive cause : Type :=
| ConfigurationError
| Raised (e : exn).

(** The dictionaries the handler returns. *)
Inductive response : Type :=
| Completed (posts_processed chunks_created chunks_failed total_chunks : Z)
| NoPosts
| TablesMissing
| ChunksTableMissing
| Failed (c : cause).

Definition statusCode (r : response) : Z :=
  match r with
  | Completed _ _ _ _ => 200
  | NoPosts => 200
  | TablesMissing => 500
  | ChunksTableMissing => 500
  | Failed _ => 500
  end.

(** The connection of the reader. *)
Inductive reader_state : Type :=
| NotConnected
| Open
| Closed.

(** The response, and how the handler leaves the two connections:
    [writer_end] is [None] when the writer never connected. *)
Record outcome : Type := {
  answer : response;
  reader_end : reader_state;
  writer_end : option writer
}.

(** [DatabaseWriter(db_config, batch_commit_size)] followed by a
    [connect()]: a new connection, no transaction open, no call made, on
    a table that holds [rows]. *)
Definition connected (batch_commit_size : Z) (rows : list chunk) : writer :=
  {| batch_commit_size := batch_commit_size;
     conn := {| committed := rows; pending := []; log := [] |};
     insert_count := 0;
     total_inserted := 0;
     total_failed := 0 |}.

(** Lines 85-98: the comments of each post are read and its chunk is
    assembled; an exception of either ends the loop. *)
Fixpoint process_posts (env : environment) (chunk_size : Z)
    (posts : list post) (chunks_to_insert : list chunk)
    : result (list chunk) :=
  match posts with
  | [] => Ok chunks_to_insert
  | p :: rest =>
      comments <- get_comments_for_post env (get (post_id p)) ;;
      c <- generate_chunk chunk_size p comments ;;
      process_posts env chunk_size rest (list_append chunks_to_insert c)
  end.

(** Lines 149-173: the [except Exception] clause. The reader is closed
    when it is open; the writer is disconnected when it is connected, and
    what that raises is dropped. *)
Definition clean_up (env : environment) (e : cause) (reader : reader_state)
    (w : option writer) : outcome :=
  {| answer := Failed e;
     reader_end := match reader with
                   | Open => Closed
                   | other => other
                   end;
     writer_end := match w with
                   | Some w' => Some (fst (disconnect (commit_ok env) w'))
                   | None => None
                   end |}.

(** Lines 106-147: the writer connects, checks its table, writes the
    batch and disconnects; [posts_processed] is [len(posts)]. *)
Definition write_chunks (env : environment) (batch_commit_size : Z)
    (posts_processed : Z) (chunks_to_insert : list chunk) : outcome :=
  match writer_connect env with
  | None => clean_up env (Raised Psycopg2Error) Closed None
  | Some rows =>
      let db_writer := connected batch_commit_size rows in
      if negb (verify_table_exists env)
      then {| answer := ChunksTableMissing;
              reader_end := Closed;
              writer_end := Some db_writer |}
      else
        match insert_chunks_batch (execute_ok env) (commit_ok env)
                chunks_to_insert db_writer with
        | (w, Raise e) => clean_up env (Raised e) Closed (Some w)
        | (w, Ok insert_stats) =>
            match disconnect (commit_ok env) w with
            | (w', Raise e) => clean_up env (Raised e) Closed (Some w')
            | (w', Ok _) =>
                {| answer :=
                     Completed posts_processed
                       (success insert_stats)
                       (failed insert_stats)
                       (total insert_stats);
                   reader_end := Closed;
                   writer_end := Some w' |}
            end
        end
  end.

(** Lines 17-173 *)
Definition lambda_handler (env : environment) : outcome :=
  match load_config env with
  | None => clean_up env ConfigurationError NotConnected None
  | Some (chunk_size, batch_commit_size) =>
      if negb (reader_connect env)
      then clean_up env (Raised Psycopg2Error) NotConnected None
      else if negb (verify_tables_exist env)
      then {| answer := TablesMissing; reader_end := Open; writer_end := None |}
      else
        match get_all_posts env with
        | Raise e => clean_up env (Raised e) Open None
        | Ok [] =>
            {| answer := NoPosts; reader_end := Closed; writer_end := None |}
        | Ok posts =>
            match process_posts env chunk_size posts [] with
            | Raise e => clean_up env (Raised e) Open None
            | Ok chunks_to_insert =>
                write_chunks env batch_commit_size (len posts)
                  chunks_to_insert
            end
        end
  end.

End LambdaFunction.

(** ** Sample data *)

Module Scenario.
Import ChunkGenerator.

Definition str (s : string) : option pyval := Some (VStr s).

(** The post and the comments of the basic unit test. *)
Definition post1 : post :=
  {| post_id := str "P1";
     timestamp := Some (VObj "2026-01-13 10:30:00" true);
     author := str "JohnDoe123";
     title := str "T";
     post_texts := str "Q" |}.

Definition comment_of (id text : string) : comment :=
  {| comment_id := str id; comment_texts := str text |}.

Definition comments3 : list comment :=
  [comment_of "C1" "A1"; comment_of "C2" "A2"; comment_of "C3" "A3"].

(** A post whose author column holds a number. *)
Definition post_numeric_author : post :=
  {| post_id := str "P2";
     timestamp := None;
     author := Some (VObj "42" true);
     title := str "T2";
     post_texts := None |}.

(** A comment whose text column holds a number. *)
Definition numeric_comment : comment :=
  {| comment_id := str "C9"; comment_texts := Some (VObj "42" true) |}.

(** A post whose body is [n] times the word [word]. *)
Definition long_post (n : nat) : post :=
  {| post_id := str "P4";
     timestamp := None;
     author := str "TestUser";
     title := str "Long Post";
     post_texts := str (String.concat " " (repeat "word" n)) |}.

(** Rows for the writer, told apart by their score. *)
Definition row (n : Z) : DatabaseWriter.chunk :=
  {| chunk_post_id := VStr "P";
     chunk_timestamp := VNone;
     full_chunk := "text";
     engagement_score := n |}.

(** The rows numbered [first], [first + 1], ..., [count] of them. *)
Definition rows (first : Z) (count : nat) : list DatabaseWriter.chunk :=
  map (fun i => row (first + Z.of_nat i)) (seq 0 count).

(** A database that accepts every INSERT. *)
Definition accept_all (k : DatabaseWriter.connection)
    (c : DatabaseWriter.chunk) : bool := true.

(** A database that refuses the row with score [n] and no other. *)
Definition refuse_row (n : Z) (k : DatabaseWriter.connection)
    (c : DatabaseWriter.chunk) : bool :=
  negb (engagement_score c =? n).

(** Every COMMIT goes through. *)
Definition commit_always (k : DatabaseWriter.connection) : bool := true.

(** The first COMMIT is refused, the later ones go through. *)
Definition commit_after_first (k : DatabaseWriter.connection) : bool :=
  0 <? DatabaseWriter.commits (DatabaseWriter.log k).


(** Every ROLLBACK goes through. *)
Definition rollback_always (k : DatabaseWriter.connection) : bool := true.

(** No ROLLBACK goes through: the connection is broken. *)
Definition rollback_never (k : DatabaseWriter.connection) : bool := false.

(** A post whose author has two blanks among its first five characters. *)
Definition post_spaced_author : post :=
  {| post_id := str "P1";
     timestamp := str "T";
     author := str "A  BCDEF";
     title := str "T";
     post_texts := str "Q" |}.

(** The INSERT calls of a stretch of rows that all went through. *)
Definition inserted (first : Z) (count : nat) : list DatabaseWriter.event :=
  map (fun c => DatabaseWriter.Execute c true) (rows first count).

(** A run of the handler: two posts, the second with a numeric author,
    every other step going through. *)
Definition two_posts_one_bad : LambdaFunction.environment :=
  {| LambdaFunction.load_config := Some (700, 1000);
     LambdaFunction.reader_connect := true;
     LambdaFunction.verify_tables_exist := true;
     LambdaFunction.get_all_posts := Ok [post1; post_numeric_author];
     LambdaFunction.get_comments_for_post := fun _ => Ok comments3;
     LambdaFunction.writer_connect := Some [];
     LambdaFunction.verify_table_exists := true;
     LambdaFunction.execute_ok := accept_all;
     LambdaFunction.commit_ok := commit_always |}.

(** A run of the handler on one good post. *)
Definition one_good_post : LambdaFunction.environment :=
  {| LambdaFunction.load_config := Some (700, 1000);
     LambdaFunction.reader_connect := true;
     LambdaFunction.verify_tables_exist := true;
     LambdaFunction.get_all_posts := Ok [post1];
     LambdaFunction.get_comments_for_post := fun _ => Ok comments3;
     LambdaFunction.writer_connect := Some [];
     LambdaFunction.verify_table_exists := true;
     LambdaFunction.execute_ok := accept_all;
     LambdaFunction.commit_ok := commit_always |}.

(** A run in which the source tables are not there. *)
Definition no_source_tables : LambdaFunction.environment :=
  {| LambdaFunction.load_config := Some (700, 1000);
     LambdaFunction.reader_connect := true;
     LambdaFunction.verify_tables_exist := false;
     LambdaFunction.get_all_posts := Ok [post1];
     LambdaFunction.get_comments_for_post := fun _ => Ok comments3;
     LambdaFunction.writer_connect := Some [];
     LambdaFunction.verify_table_exists := true;
     LambdaFunction.execute_ok := accept_all;
     LambdaFunction.commit_ok := commit_always |}.

End Scenario.

(** ** Order-preserving selections *)

(** [subseq l1 l2]: [l1] is [l2] with some elements left out, the others
    in the same order and as many times. *)
Inductive subseq {A : Type} : list A -> list A -> Prop :=
| subseq_nil : subseq [] []
| subseq_skip (x : A) (l1 l2 : list A) : subseq l1 l2 -> subseq l1 (x :: l2)
| subseq_keep (x : A) (l1 l2 : list A) :
    subseq l1 l2 -> subseq (x :: l1) (x :: l2).

(** * Properties *)

(** ** Strings, words and slices *)

Module PyStrFacts.
Import PyStr.

Lemma append_empty_r (s : string) : s ++ "" = s.
Proof.
  induction s as [|c s IH]; simpl; [reflexivity | now rewrite IH].
Qed.

Lemma append_assoc (a b c : string) : (a ++ b) ++ c = a ++ (b ++ c).
Proof.
  induction a as [|x a IH]; simpl; [reflexivity | now rewrite IH].
Qed.

Lemma append_snoc (cur : string) (c : ascii) (w : string) :
  (cur ++ String c "") ++ w = cur ++ String c w.
Proof. now rewrite append_assoc. Qed.

Lemma flush_nonempty (w : string) : w <> "" -> flush w = [w].
Proof. destruct w; [congruence | reflexivity]. Qed.

Lemma no_space_append (a b : string) :
  no_space (a ++ b) = no_space a && no_space b.
Proof.
  induction a as [|x a IH]; simpl; [reflexivity|].
  now rewrite IH, andb_assoc.
Qed.

(** A stretch without whitespace is read into the current word. *)
Lemma split_from_no_space (w cur rest : string) :
  no_space w = true ->
  split_from cur (w ++ rest) = split_from (cur ++ w) rest.
Proof.
  revert cur.
  induction w as [|c w IH]; intros cur Hw; simpl.
  - now rewrite append_empty_r.
  - simpl in Hw. apply andb_true_iff in Hw as [Hc Hw].
    apply negb_true_iff in Hc. rewrite Hc.
    rewrite IH by assumption. now rewrite append_snoc.
Qed.

(** Every word the scan emits is a word. *)
Lemma split_from_words (s cur : string) :
  no_space cur = true -> Forall is_word (split_from cur s).
Proof.
  revert cur.
  induction s as [|c s IH]; intros cur Hcur; simpl.
  - destruct cur; constructor; [split; [discriminate | assumption] | constructor].
  - destruct (isspace c) eqn:Hc.
    + apply Forall_app. split; [| now apply IH].
      destruct cur; constructor; [split; [discriminate | assumption] | constructor].
    + apply IH. rewrite no_space_append, Hcur. simpl. now rewrite Hc.
Qed.

Lemma split_words (s : string) : Forall is_word (split s).
Proof. now apply split_from_words. Qed.

Lemma space_isspace : isspace " " = true.
Proof. reflexivity. Qed.

(** Splitting what [" ".join] built from words gives the words back. *)
Lemma split_join_words (ws : list string) :
  Forall is_word ws -> split (join " " ws) = ws.
Proof.
  unfold split, join.
  induction ws as [|w ws IH]; intros Hws; [reflexivity|].
  inversion Hws as [|w' ws' [Hne Hw] Hrest]; subst.
  destruct ws as [|w2 ws].
  - simpl. rewrite <- (append_empty_r w) at 1.
    rewrite split_from_no_space by assumption. simpl.
    now apply flush_nonempty.
  - change (concat " " (w :: w2 :: ws))
      with (w ++ String " " (concat " " (w2 :: ws))).
    rewrite split_from_no_space by assumption.
    cbn [split_from append]. rewrite space_isspace.
    rewrite flush_nonempty by assumption.
    simpl. f_equal. now apply IH.
Qed.

(** [len] *)
Lemma len_cons {A : Type} (x : A) (l : list A) : len (x :: l) = 1 + len l.
Proof. unfold len. simpl List.length. lia. Qed.

Lemma len_nonneg {A : Type} (l : list A) : 0 <= len l.
Proof. unfold len. lia. Qed.

Lemma len_append {A : Type} (l : list A) (x : A) :
  len (l ++ [x]) = len l + 1.
Proof. unfold len. rewrite length_app. simpl. lia. Qed.

Lemma len_zero {A : Type} (l : list A) : len l <= 0 -> l = [].
Proof. destruct l; [reflexivity | unfold len; simpl; lia]. Qed.

Lemma Forall_firstn {A : Type} (P : A -> Prop) (n : nat) (l : list A) :
  Forall P l -> Forall P (firstn n l).
Proof.
  intros H. revert n.
  induction H as [|x l Hx Hl IH]; intros [|n]; simpl; constructor; auto.
Qed.

Lemma list_prefix_nonneg {A : Type} (l : list A) (k : Z) :
  0 <= k -> list_prefix l k = firstn (Z.to_nat k) l.
Proof.
  intros Hk. unfold list_prefix.
  destruct (0 <=? k) eqn:E; [reflexivity | apply Z.leb_gt in E; lia].
Qed.

Lemma len_firstn_le {A : Type} (l : list A) (k : Z) :
  0 <= k -> len (firstn (Z.to_nat k) l) <= k.
Proof.
  intros Hk. unfold len. rewrite length_firstn. lia.
Qed.

Lemma len_firstn_exact {A : Type} (l : list A) (k : Z) :
  0 <= k -> k <= len l -> len (firstn (Z.to_nat k) l) = k.
Proof.
  unfold len. intros Hk Hl. rewrite length_firstn. lia.
Qed.

(** [s[:n]] keeps a short string whole and cuts a long one to [n]. *)
Lemma str_prefix_short (n : nat) (s : string) :
  (String.length s <= n)%nat -> str_prefix n s = s.
Proof.
  unfold str_prefix. revert n.
  induction s as [|c s IH]; intros n Hn.
  - destruct n; reflexivity.
  - destruct n as [|n]; simpl in *; [lia|].
    f_equal. apply IH. lia.
Qed.

Lemma str_prefix_length (n : nat) (s : string) :
  String.length (str_prefix n s) = Nat.min n (String.length s).
Proof.
  unfold str_prefix. revert n.
  induction s as [|c s IH]; intros n.
  - destruct n; reflexivity.
  - destruct n as [|n]; simpl; [reflexivity|]. now rewrite IH.
Qed.

Lemma str_prefix_long (n : nat) (s : string) :
  (n < String.length s)%nat ->
  str_prefix n s <> s /\ String.length (str_prefix n s) = n.
Proof.
  intros Hn. assert (String.length (str_prefix n s) = n) as Hl.
  { rewrite str_prefix_length. lia. }
  split; [| exact Hl].
  intros Heq. rewrite Heq in Hl. lia.
Qed.

Lemma prefix_empty (s : string) : String.prefix "" s = true.
Proof. destruct s; reflexivity. Qed.

Lemma prefix_append (a b : string) : String.prefix a (a ++ b) = true.
Proof.
  induction a as [|c a IH]; simpl.
  - destruct b; reflexivity.
  - destruct (ascii_dec c c); [assumption | congruence].
Qed.

Lemma prefix_join_head (sep m : string) (rest : list string) :
  String.prefix m (join sep (m :: rest)) = true.
Proof.
  unfold join. destruct rest as [|x rest]; simpl.
  - rewrite <- (append_empty_r m) at 2. apply prefix_append.
  - apply prefix_append.
Qed.

End PyStrFacts.

(** ** Chunk assembly *)

Module ChunkGeneratorFacts.
Import PyStr PyStrFacts ChunkGenerator.

(** *** The loop over the comments after the first *)

Lemma other_texts_from (rest : list comment) (acc : list pyval) :
  fold_left
    (fun other_comments_texts c =>
       let text := comment_text c in
       if truthy text
       then list_append other_comments_texts text
       else other_comments_texts)
    rest acc
  = (acc ++ filter truthy (map comment_text rest))%list.
Proof.
  revert acc.
  induction rest as [|c rest IH]; intros acc; simpl.
  - now rewrite app_nil_r.
  - rewrite IH. destruct (truthy (comment_text c)); [| reflexivity].
    unfold list_append. now rewrite <- app_assoc.
Qed.

Lemma other_texts_filter (rest : list comment) :
  other_texts rest = filter truthy (map comment_text rest).
Proof. unfold other_texts. now rewrite other_texts_from. Qed.

Lemma other_texts_empty (rest : list comment) :
  existsb (fun c => truthy (comment_text c)) rest = false ->
  other_texts rest = [].
Proof.
  rewrite other_texts_filter.
  induction rest as [|c rest IH]; simpl; [reflexivity|].
  intros H. apply orb_false_iff in H as [Hc Hr].
  rewrite Hc. now apply IH.
Qed.

Lemma other_texts_nonempty (rest : list comment) :
  existsb (fun c => truthy (comment_text c)) rest = true ->
  other_texts rest <> [].
Proof.
  rewrite other_texts_filter.
  induction rest as [|c rest IH]; simpl; [discriminate|].
  intros H. destruct (truthy (comment_text c)); [discriminate|].
  now apply IH.
Qed.

(** [join] on values: defined exactly when every value is a [str]. *)
Lemma strs_of_good (rest : list comment) :
  existsb bad_comment rest = false ->
  exists ss, strs_of (other_texts rest) = Ok ss.
Proof.
  rewrite other_texts_filter.
  induction rest as [|c rest IH]; simpl; intros H.
  - now exists [].
  - apply orb_false_iff in H as [Hc Hr].
    destruct (IH Hr) as [ss Hss].
    unfold bad_comment in Hc.
    destruct (truthy (comment_text c)) eqn:Ht; [| now exists ss].
    simpl in Hc. apply negb_false_iff in Hc.
    destruct (comment_text c) as [|s|r t]; try discriminate.
    simpl. rewrite Hss. simpl. now exists (s :: ss).
Qed.

Lemma strs_of_bad (rest : list comment) :
  existsb bad_comment rest = true ->
  strs_of (other_texts rest) = Raise TypeError.
Proof.
  rewrite other_texts_filter.
  induction rest as [|c rest IH]; simpl; intros H; [discriminate|].
  unfold bad_comment in H.
  destruct (truthy (comment_text c)) eqn:Ht.
  - destruct (comment_text c) as [|s|r t] eqn:Hv; simpl in *;
      try discriminate; try reflexivity.
    rewrite (IH H). reflexivity.
  - simpl in H. now apply IH.
Qed.

(** *** The steps of [generate_chunk] in closed form *)

Lemma add_title_spec (p : post) (comps : list string) (cs : list comment)
    (ap oc : string) :
  add_title p comps
  = (comps ++ opt_section (present p cs Title)
                (section_text p cs ap oc Title))%list.
Proof.
  unfold add_title, present, section_text, opt_section, list_append.
  destruct (truthy (get (title p))); [reflexivity | now rewrite app_nil_r].
Qed.

Lemma add_question_spec (p : post) (comps : list string) (cs : list comment)
    (ap oc : string) :
  add_question p comps
  = (comps ++ opt_section (present p cs Question)
                (section_text p cs ap oc Question))%list.
Proof.
  unfold add_question, present, section_text, opt_section, list_append.
  destruct (truthy (get (post_texts p))); [reflexivity | now rewrite app_nil_r].
Qed.

Lemma add_important_answer_spec (p : post) (comps : list string)
    (cs : list comment) (ap oc : string) :
  add_important_answer cs comps
  = (comps ++ opt_section (present p cs ImportantAnswer)
                (section_text p cs ap oc ImportantAnswer))%list.
Proof.
  unfold add_important_answer, present, section_text, opt_section, list_append.
  destruct cs as [|c0 rest]; [now rewrite app_nil_r|].
  rewrite len_cons.
  destruct (1 + len rest >? 0) eqn:E.
  - destruct (truthy (comment_text c0)); [reflexivity | now rewrite app_nil_r].
  - pose proof (len_nonneg rest). rewrite Z.gtb_ltb in E.
    apply Z.ltb_ge in E. lia.
Qed.

Lemma add_other_comments_spec (p : post) (cs : list comment) (ap : string)
    (comps : list string) :
  existsb bad_comment (tl cs) = false ->
  add_other_comments cs comps
  = Ok (comps ++ opt_section (present p cs OtherComments)
                   (section_text p cs ap (other_concat cs) OtherComments))%list.
Proof.
  intros Hgood.
  unfold add_other_comments, present, section_text, opt_section, other_concat.
  destruct cs as [|c0 rest]; simpl tl in *.
  - simpl. now rewrite app_nil_r.
  - destruct (strs_of_good rest Hgood) as [ss Hss].
    destruct (existsb (fun c => truthy (comment_text c)) rest) eqn:Hex.
    + pose proof (other_texts_nonempty rest Hex) as Hne.
      rewrite len_cons.
      destruct (1 + len rest >? 1) eqn:E.
      * unfold join_vals. rewrite Hss.
        destruct (other_texts rest); [congruence | reflexivity].
      * destruct rest as [|c1 rest]; [discriminate|].
        rewrite len_cons in E. pose proof (len_nonneg rest).
        rewrite Z.gtb_ltb in E. apply Z.ltb_ge in E. lia.
    + rewrite (other_texts_empty rest Hex).
      rewrite app_nil_r. now destruct (len (c0 :: rest) >? 1).
Qed.

Lemma add_other_comments_raises (cs : list comment) (comps : list string) :
  existsb bad_comment (tl cs) = true ->
  add_other_comments cs comps = Raise TypeError.
Proof.
  intros Hbad. unfold add_other_comments.
  destruct cs as [|c0 rest]; simpl tl in *; [discriminate|].
  destruct rest as [|c1 rest]; [discriminate|].
  rewrite !len_cons.
  destruct (1 + (1 + len rest) >? 1) eqn:E.
  - pose proof (strs_of_bad _ Hbad) as Hraise.
    unfold join_vals. rewrite Hraise.
    destruct (other_texts (c1 :: rest)) eqn:Ho; [| reflexivity].
    simpl in Hraise. discriminate.
  - pose proof (len_nonneg rest). rewrite Z.gtb_ltb in E.
    apply Z.ltb_ge in E. lia.
Qed.

Lemma author_prefix_good (p : post) :
  bad_author p = false -> exists ap, author_prefix p = Ok ap.
Proof.
  unfold bad_author, author_prefix, get.
  destruct (author p) as [[|s|r t]|]; simpl; intros H; eauto.
  - destruct (negb (s =? "")%string); eauto.
  - destruct t; [discriminate | eauto].
Qed.

Lemma author_prefix_bad (p : post) :
  bad_author p = true -> author_prefix p = Raise TypeError.
Proof.
  unfold bad_author, author_prefix, get.
  destruct (author p) as [[|s|r t]|]; simpl; intros H; try discriminate.
  - now rewrite andb_false_r in H.
  - destruct t; [reflexivity | discriminate].
Qed.

(** The components are the present sections, in the fixed order. *)
Lemma build_components_spec (p : post) (cs : list comment) :
  assembly_fails p cs = false ->
  build_components p cs
  = Ok (map (section_text p cs (author_field p) (other_concat cs))
          (filter (present p cs) all_sections)).
Proof.
  unfold assembly_fails. intros H. apply orb_false_iff in H as [Ha Hc].
  destruct (author_prefix_good p Ha) as [ap Hap].
  unfold build_components, author_field. rewrite Hap. cbn [bind].
  rewrite (add_other_comments_spec p cs ap _ Hc).
  rewrite (add_important_answer_spec p _ cs ap (other_concat cs)).
  rewrite (add_question_spec p _ cs ap (other_concat cs)).
  rewrite (add_title_spec p _ cs ap (other_concat cs)).
  unfold all_sections, opt_section, list_append. cbn [filter].
  change (present p cs Metadata) with true. cbv iota.
  destruct (present p cs Title), (present p cs Question),
    (present p cs ImportantAnswer), (present p cs OtherComments);
    reflexivity.
Qed.

Lemma build_components_raises (p : post) (cs : list comment) :
  assembly_fails p cs = true -> build_components p cs = Raise TypeError.
Proof.
  unfold assembly_fails, build_components. intros H.
  destruct (bad_author p) eqn:Ha.
  - now rewrite (author_prefix_bad p Ha).
  - simpl in H. destruct (author_prefix_good p Ha) as [ap Hap].
    rewrite Hap. cbn [bind]. now apply add_other_comments_raises.
Qed.

Lemma full_text_returns (p : post) (cs : list comment) :
  assembly_fails p cs = false -> exists text, full_text p cs = Ok text.
Proof.
  intros H. unfold full_text.
  rewrite (build_components_spec p cs H). cbn [bind]. eauto.
Qed.

Lemma full_text_raises (p : post) (cs : list comment) :
  assembly_fails p cs = true -> full_text p cs = Raise TypeError.
Proof.
  intros H. unfold full_text. now rewrite (build_components_raises p cs H).
Qed.

Lemma generate_chunk_of_text (chunk_size : Z) (p : post) (cs : list comment)
    (text : string) :
  full_text p cs = Ok text ->
  generate_chunk chunk_size p cs
  = Ok {| chunk_post_id := get (post_id p);
          chunk_timestamp := get (timestamp p);
          full_chunk := _truncate_to_words text chunk_size;
          engagement_score := len cs |}.
Proof. intros H. unfold generate_chunk. now rewrite H. Qed.

Lemma generate_chunk_raises (chunk_size : Z) (p : post) (cs : list comment) :
  assembly_fails p cs = true ->
  generate_chunk chunk_size p cs = Raise TypeError.
Proof.
  intros H. unfold generate_chunk. now rewrite (full_text_raises p cs H).
Qed.

(** *** Truncation *)

Lemma split_empty : split "" = [].
Proof. reflexivity. Qed.

Lemma truncate_spec (text : string) (k : Z) :
  0 <= k ->
  len (split (_truncate_to_words text k)) <= k
  /\ (len (split text) <= k -> _truncate_to_words text k = text)
  /\ (k < len (split text) ->
      _truncate_to_words text k
      = join " " (firstn (Z.to_nat k) (split text))
      /\ len (split (_truncate_to_words text k)) = k).
Proof.
  intros Hk. unfold _truncate_to_words.
  destruct (String.eqb_spec text "") as [-> | Hne].
  - rewrite split_empty. unfold len. simpl. repeat split; lia.
  - destruct (len (split text) <=? k) eqn:E.
    + apply Z.leb_le in E. repeat split; try assumption; lia.
    + apply Z.leb_gt in E.
      rewrite list_prefix_nonneg by assumption.
      rewrite split_join_words by apply Forall_firstn, split_words.
      repeat split; try lia.
      * now apply len_firstn_le.
      * apply len_firstn_exact; lia.
Qed.

(** *** The chunk record *)

(** C1: for a positive word budget, the whitespace-split word count of
    [full_chunk] is at most the budget; when the joined text is within the
    budget, [full_chunk] is that text unchanged; when it is over the budget,
    [full_chunk] is the first [chunk_size] words joined by single spaces,
    which are [chunk_size] words again. *)
Theorem full_chunk_within_word_budget (chunk_size : Z) (p : post)
    (cs : list comment) :
  0 < chunk_size ->
  assembly_fails p cs = false ->
  exists text r,
    full_text p cs = Ok text
    /\ generate_chunk chunk_size p cs = Ok r
    /\ len (split (full_chunk r)) <= chunk_size
    /\ (len (split text) <= chunk_size -> full_chunk r = text)
    /\ (chunk_size < len (split text) ->
        full_chunk r
        = join " " (firstn (Z.to_nat chunk_size) (split text))
        /\ len (split (full_chunk r)) = chunk_size).
Proof.
  intros Hsize Hgood.
  destruct (full_text_returns p cs Hgood) as [text Htext].
  exists text. eexists. split; [exact Htext|].
  split; [apply generate_chunk_of_text; exact Htext|].
  cbn [full_chunk]. apply truncate_spec. lia.
Qed.

Lemma full_chunk_within_word_budget_witness :
  exists text r,
    full_text Scenario.post1 Scenario.comments3 = Ok text
    /\ generate_chunk 5 Scenario.post1 Scenario.comments3 = Ok r
    /\ len (split (full_chunk r)) <= 5
    /\ (len (split text) <= 5 -> full_chunk r = text)
    /\ (5 < len (split text) ->
        full_chunk r = join " " (firstn (Z.to_nat 5) (split text))
        /\ len (split (full_chunk r)) = 5).
Proof.
  apply (full_chunk_within_word_budget 5 Scenario.post1 Scenario.comments3);
    [lia | reflexivity].
Defined.

(** [generate_chunk] returns exactly when the assembly does not raise. *)
Lemma generate_chunk_defined (chunk_size : Z) (p : post) (cs : list comment) :
  is_ok (generate_chunk chunk_size p cs) = negb (assembly_fails p cs).
Proof.
  destruct (assembly_fails p cs) eqn:Hfail.
  - now rewrite (generate_chunk_raises chunk_size p cs Hfail).
  - destruct (full_text_returns p cs Hfail) as [text Htext].
    now rewrite (generate_chunk_of_text chunk_size p cs text Htext).
Qed.

(** C5: [generate_chunk] returns a record exactly when the assembly does
    not raise, and the [engagement_score] of that record is the length of
    the comment sequence passed in, whatever the comment texts are. *)
Theorem engagement_score_is_comment_count (chunk_size : Z) (p : post)
    (cs : list comment) :
  match generate_chunk chunk_size p cs with
  | Ok r => assembly_fails p cs = false /\ engagement_score r = len cs
  | Raise _ => assembly_fails p cs = true
  end.
Proof.
  unfold generate_chunk.
  destruct (assembly_fails p cs) eqn:Hfail.
  - now rewrite (full_text_raises p cs Hfail).
  - destruct (full_text_returns p cs Hfail) as [text ->].
    cbn [bind engagement_score]. split; reflexivity.
Qed.

(** C6: the components are the sections that are present, in the order
    metadata, title, question, important answer, other comments, joined by
    [DELIMITER]; the metadata section is always first; a section is there
    exactly when its datum is truthy; leaving out the title, the post text
    or all comments removes that section and no other. *)
Theorem sections_fixed_order_and_presence (p : post) (cs : list comment) :
  assembly_fails p cs = false ->
  let text := section_text p cs (author_field p) (other_concat cs) in
  let kept (dropped : section -> bool) :=
    map text
      (filter (fun s => present p cs s && negb (dropped s)) all_sections) in
  build_components p cs = Ok (map text (filter (present p cs) all_sections))
  /\ full_text p cs
     = Ok (join DELIMITER (map text (filter (present p cs) all_sections)))
  /\ hd_error (map text (filter (present p cs) all_sections))
     = Some (text Metadata)
  /\ (forall s, String.prefix (label s) (text s) = true)
  /\ build_components (without_title p) cs = Ok (kept (section_eqb Title))
  /\ build_components (without_post_texts p) cs
     = Ok (kept (section_eqb Question))
  /\ build_components p []
     = Ok (kept (fun s => section_eqb ImportantAnswer s
                          || section_eqb OtherComments s)).
Proof.
  intros Hgood text kept.
  pose proof (build_components_spec p cs Hgood) as Hb.
  assert (bad_author p = false /\ existsb bad_comment (tl cs) = false)
    as [Ha Hc] by (now apply orb_false_iff).
  split; [exact Hb|].
  split; [unfold full_text; now rewrite Hb|].
  split; [reflexivity|].
  split.
  { intros s. unfold text.
    destruct s; cbn; first [reflexivity | apply prefix_empty]. }
  split; [| split].
  - rewrite build_components_spec
      by (unfold assembly_fails; now rewrite Hc, orb_false_r).
    unfold kept, text, all_sections. cbn [filter section_eqb negb andb].
    change (present (without_title p) cs Title) with false.
    change (present p cs Metadata) with true.
    change (present (without_title p) cs Metadata) with true.
    change (present (without_title p) cs Question)
      with (present p cs Question).
    change (present (without_title p) cs ImportantAnswer)
      with (present p cs ImportantAnswer).
    change (present (without_title p) cs OtherComments)
      with (present p cs OtherComments).
    rewrite !andb_true_r, !andb_false_r. cbv iota.
    destruct (present p cs Question), (present p cs ImportantAnswer),
      (present p cs OtherComments); reflexivity.
  - rewrite build_components_spec
      by (unfold assembly_fails; now rewrite Hc, orb_false_r).
    unfold kept, text, all_sections. cbn [filter section_eqb negb andb].
    change (present (without_post_texts p) cs Question) with false.
    change (present p cs Metadata) with true.
    change (present (without_post_texts p) cs Metadata) with true.
    change (present (without_post_texts p) cs Title)
      with (present p cs Title).
    change (present (without_post_texts p) cs ImportantAnswer)
      with (present p cs ImportantAnswer).
    change (present (without_post_texts p) cs OtherComments)
      with (present p cs OtherComments).
    rewrite !andb_true_r, !andb_false_r. cbv iota.
    destruct (present p cs Title), (present p cs ImportantAnswer),
      (present p cs OtherComments); reflexivity.
  - rewrite build_components_spec
      by (unfold assembly_fails; simpl; now rewrite Ha).
    unfold kept, text, all_sections.
    cbn [filter section_eqb negb andb orb].
    change (present p [] ImportantAnswer) with false.
    change (present p [] OtherComments) with false.
    change (present p cs Metadata) with true.
    change (present p [] Metadata) with true.
    change (present p [] Title) with (present p cs Title).
    change (present p [] Question) with (present p cs Question).
    rewrite !andb_true_r, !andb_false_r. cbv iota.
    destruct (present p cs Title), (present p cs Question); reflexivity.
Qed.

Lemma sections_fixed_order_and_presence_witness :
  build_components Scenario.post1 Scenario.comments3
  = Ok (map (section_text Scenario.post1 Scenario.comments3
               (author_field Scenario.post1)
               (other_concat Scenario.comments3))
          (filter (present Scenario.post1 Scenario.comments3) all_sections)).
Proof.
  exact (proj1 (sections_fixed_order_and_presence
                  Scenario.post1 Scenario.comments3 eq_refl)).
Defined.

Lemma truncate_under_budget (text : string) (k : Z) :
  len (split text) <= k -> _truncate_to_words text k = text.
Proof.
  intros H. unfold _truncate_to_words.
  destruct (String.eqb_spec text "") as [-> | Hne]; [reflexivity|].
  apply Z.leb_le in H. now rewrite H.
Qed.

(** C8, as stated of [full_chunk], fails once the text is truncated: the
    first five characters of the author [A  BCDEF] are [A  BC]; with a
    budget of 10 words the chunk is the metadata line rejoined by single
    spaces, whose author field is [A BC]; with a budget of 3 words the
    chunk ends before the author field. *)
Lemma truncation_rewrites_the_author_field :
  str_prefix 5 "A  BCDEF" = "A  BC"
  /\ full_text Scenario.post_spaced_author []
     = Ok (join DELIMITER
             ["metadata: [Post_id: P1 | Timestamp: T | Author: A  BC]";
              "Title: T";
              "Question (priority 1): Q"])
  /\ (exists r,
        generate_chunk 10 Scenario.post_spaced_author [] = Ok r
        /\ full_chunk r
           = "metadata: [Post_id: P1 | Timestamp: T | Author: A BC]")
  /\ (exists r,
        generate_chunk 3 Scenario.post_spaced_author [] = Ok r
        /\ full_chunk r = "metadata: [Post_id: P1").
Proof.
  split; [reflexivity|]. split; [reflexivity|].
  split; eexists; split; reflexivity.
Qed.

(** C8: the author field of the metadata line is the first five characters
    of the author, the empty string when the author is absent (or falsy);
    an author of at most five characters is used whole, a longer one is
    never used in full. Unless the text is truncated, [full_chunk] starts
    with that metadata line. *)
Theorem author_field_is_five_char_prefix (p : post) (cs : list comment) :
  assembly_fails p cs = false ->
  exists a line comps text,
    (author p = Some (VStr a)
     \/ (truthy (get (author p)) = false /\ a = ""))
    /\ line = "metadata: [Post_id: " ++ fmt (get_or (post_id p) (VStr ""))
              ++ " | Timestamp: " ++ fmt (get_or (timestamp p) (VStr ""))
              ++ " | Author: " ++ str_prefix 5 a ++ "]"
    /\ build_components p cs = Ok (line :: comps)
    /\ ((String.length a <= 5)%nat -> str_prefix 5 a = a)
    /\ ((5 < String.length a)%nat ->
        str_prefix 5 a <> a /\ String.length (str_prefix 5 a) = 5%nat)
    /\ full_text p cs = Ok text
    /\ String.prefix line text = true
    /\ (forall chunk_size,
          len (split text) <= chunk_size ->
          exists r,
            generate_chunk chunk_size p cs = Ok r
            /\ String.prefix line (full_chunk r) = true).
Proof.
  intros Hgood.
  pose proof (build_components_spec p cs Hgood) as Hb.
  assert (exists a,
             (author p = Some (VStr a)
              \/ (truthy (get (author p)) = false /\ a = ""))
             /\ author_field p = str_prefix 5 a) as (a & Ha & Hfield).
  { assert (bad_author p = false) as Hauthor
      by (unfold assembly_fails in Hgood; now apply orb_false_iff in Hgood).
    clear Hb Hgood. unfold bad_author in Hauthor.
    unfold author_field, author_prefix, get in *.
    destruct (author p) as [[|s|r t]|]; simpl in *.
    - exists "". split; [right; split|]; reflexivity.
    - exists s. split; [now left|].
      destruct s; reflexivity.
    - destruct t; [discriminate|].
      exists "". split; [right; split|]; reflexivity.
    - exists "". split; [right; split|]; reflexivity. }
  unfold all_sections in Hb. cbn [filter map] in Hb.
  change (present p cs Metadata) with true in Hb. cbv iota in Hb.
  cbn [map section_text] in Hb. rewrite Hfield in Hb.
  exists a. eexists. eexists. eexists.
  split; [exact Ha|].
  split; [reflexivity|].
  split; [exact Hb|].
  split; [apply str_prefix_short|].
  split; [apply str_prefix_long|].
  assert (forall rest, String.prefix (metadata p (str_prefix 5 a))
                         (join DELIMITER (metadata p (str_prefix 5 a) :: rest))
                       = true) as Hprefix
    by (intros rest; apply prefix_join_head).
  split; [unfold full_text; rewrite Hb; reflexivity|].
  split; [apply Hprefix|].
  intros chunk_size Hfits. eexists.
  split.
  - apply generate_chunk_of_text. unfold full_text. rewrite Hb. reflexivity.
  - cbn [full_chunk]. rewrite (truncate_under_budget _ _ Hfits).
    apply Hprefix.
Qed.

Lemma author_field_is_five_char_prefix_witness :
  exists a line comps text,
    (author Scenario.post1 = Some (VStr a)
     \/ (truthy (get (author Scenario.post1)) = false /\ a = ""))
    /\ line = "metadata: [Post_id: "
              ++ fmt (get_or (post_id Scenario.post1) (VStr ""))
              ++ " | Timestamp: "
              ++ fmt (get_or (timestamp Scenario.post1) (VStr ""))
              ++ " | Author: " ++ str_prefix 5 a ++ "]"
    /\ build_components Scenario.post1 Scenario.comments3 = Ok (line :: comps)
    /\ ((String.length a <= 5)%nat -> str_prefix 5 a = a)
    /\ ((5 < String.length a)%nat ->
        str_prefix 5 a <> a /\ String.length (str_prefix 5 a) = 5%nat)
    /\ full_text Scenario.post1 Scenario.comments3 = Ok text
    /\ String.prefix line text = true
    /\ (forall chunk_size,
          len (split text) <= chunk_size ->
          exists r,
            generate_chunk chunk_size Scenario.post1 Scenario.comments3 = Ok r
            /\ String.prefix line (full_chunk r) = true).
Proof.
  apply (author_field_is_five_char_prefix Scenario.post1 Scenario.comments3).
  reflexivity.
Defined.

(** *** The examples of the unit tests *)

(** Five sections, the author cut to [JohnD], three comments counted. *)
Example basic_chunk_generation :
  generate_chunk 700 Scenario.post1 Scenario.comments3
  = Ok {| chunk_post_id := VStr "P1";
          chunk_timestamp := VObj "2026-01-13 10:30:00" true;
          full_chunk :=
            join DELIMITER
              ["metadata: [Post_id: P1 | Timestamp: 2026-01-13 10:30:00 | Author: JohnD]";
               "Title: T";
               "Question (priority 1): Q";
               "Important answer (priority 2): A1";
               "Other comments (priority 3): A2" ++ DELIMITER ++ "A3"];
          engagement_score := 3 |}.
Proof. reflexivity. Qed.

(** Without comments: metadata, title and question only. *)
Example chunk_with_no_comments :
  build_components Scenario.post1 []
  = Ok ["metadata: [Post_id: P1 | Timestamp: 2026-01-13 10:30:00 | Author: JohnD]";
        "Title: T";
        "Question (priority 1): Q"].
Proof. reflexivity. Qed.

(** A body of 500 words and a budget of 50: exactly 50 words are left. *)
Example chunk_truncation :
  match generate_chunk 50 (Scenario.long_post 500) [] with
  | Ok r => len (split (full_chunk r)) = 50
  | Raise _ => False
  end.
Proof. vm_compute. reflexivity. Qed.

(** *** Batch assembly *)

Lemma chunks_batch_from (chunk_size : Z) (pairs : list (post * list comment))
    (acc : list chunk) :
  fold_left
    (fun chunks pc =>
       match generate_chunk chunk_size (fst pc) (snd pc) with
       | Ok c => list_append chunks c
       | Raise _ => chunks
       end)
    pairs acc
  = (acc ++ flat_map (chunk_or_skip chunk_size) pairs)%list.
Proof.
  revert acc.
  induction pairs as [|pc pairs IH]; intros acc; simpl.
  - now rewrite app_nil_r.
  - rewrite IH. unfold chunk_or_skip at 2, list_append.
    destruct (generate_chunk chunk_size (fst pc) (snd pc));
      [now rewrite <- app_assoc | reflexivity].
Qed.

(** A post whose author is a number is skipped, its neighbours are kept. *)
Example batch_with_numeric_author :
  generate_chunks_batch 700
    [(Scenario.post1, Scenario.comments3);
     (Scenario.post_numeric_author, Scenario.comments3);
     (Scenario.post1, [])]
  = (chunk_or_skip 700 (Scenario.post1, Scenario.comments3)
     ++ chunk_or_skip 700 (Scenario.post1, []))%list
  /\ generate_chunk 700 Scenario.post_numeric_author Scenario.comments3
     = Raise TypeError
  /\ len (generate_chunks_batch 700
            [(Scenario.post1, Scenario.comments3);
             (Scenario.post_numeric_author, Scenario.comments3);
             (Scenario.post1, [])])
     = 2.
Proof. repeat split. Qed.

(** C9: [generate_chunks_batch] never raises; a pair whose assembly raises
    contributes nothing, every other pair contributes its chunk, and the
    chunks come in input order. *)
Theorem batch_skips_failing_posts (chunk_size : Z)
    (pairs : list (post * list comment)) :
  generate_chunks_batch chunk_size pairs
  = flat_map (chunk_or_skip chunk_size) pairs
  /\ Forall2
       (fun pc c => generate_chunk chunk_size (fst pc) (snd pc) = Ok c)
       (filter (fun pc => negb (assembly_fails (fst pc) (snd pc))) pairs)
       (generate_chunks_batch chunk_size pairs).
Proof.
  assert (generate_chunks_batch chunk_size pairs
          = flat_map (chunk_or_skip chunk_size) pairs) as Heq.
  { unfold generate_chunks_batch. now rewrite chunks_batch_from. }
  split; [exact Heq|].
  rewrite Heq. clear Heq.
  induction pairs as [|[p cs] pairs IH]; simpl; [constructor|].
  unfold chunk_or_skip at 1. simpl fst. simpl snd.
  pose proof (generate_chunk_defined chunk_size p cs) as Hdef.
  destruct (generate_chunk chunk_size p cs) as [c|e] eqn:Hgen;
    cbn [is_ok] in Hdef; rewrite <- Hdef; simpl.
  - constructor; assumption.
  - exact IH.
Qed.

End ChunkGeneratorFacts.

(** ** Batched persistence *)

Module DatabaseWriterFacts.
Import PyStr PyStrFacts DatabaseWriter.

Lemma commits_append (l : list event) (e : event) :
  commits (l ++ [e])
  = commits l + match e with Commit _ => 1 | _ => 0 end.
Proof.
  induction l as [|x l IH]; cbn [commits app].
  - destruct e; reflexivity.
  - destruct x; rewrite IH; lia.
Qed.

Lemma attempts_append (l : list event) (e : event) :
  attempts (l ++ [e])
  = (attempts l ++ match e with Execute c _ => [c] | _ => [] end)%list.
Proof.
  induction l as [|x l IH]; simpl.
  - destruct e; reflexivity.
  - destruct x; rewrite IH; reflexivity.
Qed.

(** Read the fields of an outcome and settle the arithmetic. *)
Ltac outcome :=
  cbn -[Z.add]; unfold list_append;
  rewrite ?attempts_append, ?commits_append, ?len_append, ?app_nil_r;
  repeat split; try reflexivity; try lia; try (unfold len; simpl; lia).

Section Port.

Variable execute_ok : connection -> chunk -> bool.
Variable commit_ok : connection -> bool.

(** *** The methods, outcome by outcome *)

Lemma commit_eq (w : writer) :
  _commit commit_ok w
  = if commit_ok (conn w)
    then (commit_done w, Ok tt)
    else (rolled_back (commit_refused w), Raise Psycopg2Error).
Proof.
  unfold _commit, try_except, mbind, connection_commit.
  destruct (commit_ok (conn w)); reflexivity.
Qed.

Lemma insert_chunk_eq (c : chunk) (w : writer) :
  insert_chunk execute_ok commit_ok c w
  = if execute_ok (conn w) c
    then
      if insert_count w + 1 >=? batch_commit_size w
      then
        if commit_ok (conn (executed w c))
        then (commit_done (executed w c), Ok true)
        else (failure_counted
                (rolled_back (rolled_back (commit_refused (executed w c)))),
              Ok false)
      else (executed w c, Ok true)
    else (failure_counted (rolled_back (execute_refused w c)), Ok false).
Proof.
  unfold insert_chunk, try_except, mbind, cursor_execute.
  destruct (execute_ok (conn w) c) eqn:He; [| reflexivity].
  cbn [modify set_insert_count insert_count batch_commit_size set_conn].
  destruct (insert_count w + 1 >=? batch_commit_size w) eqn:Hn;
    [| reflexivity].
  rewrite commit_eq. cbn [conn set_conn set_insert_count].
  change (commit_ok _) with (commit_ok (conn (executed w c))).
  destruct (commit_ok (conn (executed w c))); reflexivity.
Qed.

Lemma insert_loop_cons (c : chunk) (rest : list chunk) (s f : Z)
    (w w' : writer) (b : bool) :
  insert_chunk execute_ok commit_ok c w = (w', Ok b) ->
  insert_loop execute_ok commit_ok (c :: rest) s f w
  = if b then insert_loop execute_ok commit_ok rest (s + 1) f w' else insert_loop execute_ok commit_ok rest s (f + 1) w'.
Proof.
  intros H. cbn [insert_loop]. unfold mbind.
  rewrite H. destruct b; reflexivity.
Qed.

Lemma batch_eq (chunks : list chunk) (w w1 : writer) (s f : Z) :
  insert_loop execute_ok commit_ok chunks 0 0 w = (w1, Ok (s, f)) ->
  insert_chunks_batch execute_ok commit_ok chunks w
  = if insert_count w1 >? 0
    then
      if commit_ok (conn w1)
      then (commit_done w1,
            Ok {| total := len chunks; success := s; failed := f |})
      else (rolled_back (commit_refused w1), Raise Psycopg2Error)
    else (w1, Ok {| total := len chunks; success := s; failed := f |}).
Proof.
  intros H. unfold insert_chunks_batch, mbind.
  rewrite H.
  destruct (insert_count w1 >? 0); [| reflexivity].
  rewrite commit_eq. destruct (commit_ok (conn w1)); reflexivity.
Qed.

Lemma disconnect_eq (w : writer) :
  disconnect commit_ok w
  = if insert_count w >? 0
    then
      if commit_ok (conn w)
      then (closed (commit_done w), Ok tt)
      else (rolled_back (commit_refused w), Raise Psycopg2Error)
    else (closed w, Ok tt).
Proof.
  unfold disconnect, mbind.
  destruct (insert_count w >? 0); [| reflexivity].
  rewrite commit_eq. destruct (commit_ok (conn w)); reflexivity.
Qed.

(** *** What one write keeps *)

(** Whatever the database answers, one write returns, attempts its row
    once, keeps the threshold and the committed rows, and counts a failure
    exactly when it reports one. *)
Lemma insert_chunk_keeps (c : chunk) (w : writer) :
  exists w' b more,
    insert_chunk execute_ok commit_ok c w = (w', Ok b)
    /\ batch_commit_size w' = batch_commit_size w
    /\ attempts (log (conn w')) = (attempts (log (conn w)) ++ [c])%list
    /\ committed (conn w') = (committed (conn w) ++ more)%list
    /\ total_failed w' = total_failed w + (if b then 0 else 1)
    /\ (consistent w -> consistent w').
Proof.
  unfold consistent.
  assert (0 <= len (pending (conn w))) as Hp by (unfold len; lia).
  rewrite insert_chunk_eq.
  destruct (execute_ok (conn w) c).
  - destruct (insert_count w + 1 >=? batch_commit_size w).
    + destruct (commit_ok (conn (executed w c))).
      * exists (commit_done (executed w c)), true,
          (list_append (pending (conn w)) c).
        outcome.
      * exists (failure_counted
                  (rolled_back (rolled_back (commit_refused (executed w c))))),
          false, [].
        outcome.
    + exists (executed w c), true, []. outcome.
  - exists (failure_counted (rolled_back (execute_refused w c))), false, [].
    outcome.
Qed.

(** The loop of [insert_chunks_batch] goes through every row. *)
Lemma insert_loop_keeps (chunks : list chunk) :
  forall (w : writer) (s f : Z),
  exists w' s' f' more,
    insert_loop execute_ok commit_ok chunks s f w = (w', Ok (s', f'))
    /\ batch_commit_size w' = batch_commit_size w
    /\ attempts (log (conn w')) = (attempts (log (conn w)) ++ chunks)%list
    /\ committed (conn w') = (committed (conn w) ++ more)%list
    /\ s <= s' /\ f <= f'
    /\ s' + f' = s + f + len chunks
    /\ total_failed w' = total_failed w + (f' - f)
    /\ (consistent w -> consistent w').
Proof.
  induction chunks as [|c rest IH]; intros w s f.
  - exists w, s, f, []. cbn [insert_loop]. unfold ret.
    rewrite !app_nil_r. unfold len. simpl.
    repeat split; try reflexivity; try lia. auto.
  - destruct (insert_chunk_keeps c w)
      as (w1 & b & more1 & Hrun & Hn & Hatt & Hcom & Hfail & Hcons).
    rewrite (insert_loop_cons c rest s f w w1 b Hrun).
    rewrite len_cons.
    destruct b.
    + destruct (IH w1 (s + 1) f)
        as (w' & s' & f' & more & Hloop & Hn' & Hatt' & Hcom' & Hs & Hf
            & Hsum & Hfail' & Hcons').
      exists w', s', f', (more1 ++ more)%list.
      rewrite Hloop, Hn', Hatt', Hcom', Hfail', Hn, Hatt, Hcom, Hfail.
      rewrite <- !app_assoc.
      repeat split; try reflexivity; try lia. auto.
    + destruct (IH w1 s (f + 1))
        as (w' & s' & f' & more & Hloop & Hn' & Hatt' & Hcom' & Hs & Hf
            & Hsum & Hfail' & Hcons').
      exists w', s', f', (more1 ++ more)%list.
      rewrite Hloop, Hn', Hatt', Hcom', Hfail', Hn, Hatt, Hcom, Hfail.
      rewrite <- !app_assoc.
      repeat split; try reflexivity; try lia. auto.
Qed.

(** *** Counting towards the next commit *)

Hypothesis commits_go_through : forall k, commit_ok k = true.

(** With a counter below a positive threshold, a write that succeeds
    either advances the counter or, on reaching the threshold, commits and
    resets it; a write that fails leaves the counter where it was. *)
Lemma insert_chunk_counts (c : chunk) (w : writer) :
  0 <= insert_count w < batch_commit_size w ->
  exists w',
    insert_chunk execute_ok commit_ok c w = (w', Ok (execute_ok (conn w) c))
    /\ batch_commit_size w' = batch_commit_size w
    /\ (execute_ok (conn w) c = false ->
        insert_count w' = insert_count w
        /\ commits (log (conn w')) = commits (log (conn w)))
    /\ (execute_ok (conn w) c = true ->
        insert_count w + 1 < batch_commit_size w ->
        insert_count w' = insert_count w + 1
        /\ commits (log (conn w')) = commits (log (conn w)))
    /\ (execute_ok (conn w) c = true ->
        insert_count w + 1 = batch_commit_size w ->
        insert_count w' = 0
        /\ commits (log (conn w')) = commits (log (conn w)) + 1
        /\ exists l, log (conn w') = (l ++ [Execute c true; Commit true])%list).
Proof.
  intros Hcount. rewrite insert_chunk_eq.
  destruct (execute_ok (conn w) c).
  - destruct (insert_count w + 1 >=? batch_commit_size w) eqn:Hn.
    + rewrite Z.geb_le in Hn. rewrite commits_go_through.
      exists (commit_done (executed w c)).
      outcome; try discriminate.
      exists (log (conn w)). now rewrite <- app_assoc.
    + rewrite Z.geb_leb in Hn. apply Z.leb_gt in Hn.
      exists (executed w c). outcome; try discriminate.
  - exists (failure_counted (rolled_back (execute_refused w c))).
    outcome; try discriminate.
Qed.

Lemma insert_loop_counts (chunks : list chunk) :
  forall (w : writer) (s f : Z),
  0 <= insert_count w < batch_commit_size w ->
  exists w' s' f',
    insert_loop execute_ok commit_ok chunks s f w = (w', Ok (s', f'))
    /\ batch_commit_size w' = batch_commit_size w
    /\ 0 <= insert_count w' < batch_commit_size w
    /\ insert_count w + (s' - s)
       = (commits (log (conn w')) - commits (log (conn w)))
         * batch_commit_size w
         + insert_count w'
    /\ s <= s' /\ f <= f'
    /\ s' + f' = s + f + len chunks.
Proof.
  induction chunks as [|c rest IH]; intros w s f Hcount.
  - exists w, s, f. cbn [insert_loop]. unfold ret, len. simpl.
    repeat split; try reflexivity; lia.
  - destruct (insert_chunk_counts c w Hcount)
      as (w1 & Hrun & Hn & Hfail & Hstep & Hcommit).
    rewrite (insert_loop_cons c rest s f w w1 _ Hrun). rewrite len_cons.
    destruct (execute_ok (conn w) c).
    + assert (0 <= insert_count w1 < batch_commit_size w1
              /\ insert_count w + 1
                 = (commits (log (conn w1)) - commits (log (conn w)))
                   * batch_commit_size w
                   + insert_count w1) as [Hcount1 Hlaw].
      { rewrite Hn.
        destruct (Z.eq_dec (insert_count w + 1) (batch_commit_size w))
          as [Heq | Hne].
        - destruct (Hcommit eq_refl Heq) as (Hc & Hk & _).
          rewrite Hc, Hk. split; lia.
        - destruct (Hstep eq_refl ltac:(lia)) as (Hc & Hk).
          rewrite Hc, Hk. split; lia. }
      destruct (IH w1 (s + 1) f Hcount1)
        as (w' & s' & f' & Hloop & Hn' & Hc' & Hlaw' & Hs & Hf & Hsum).
      exists w', s', f'. rewrite Hloop, Hn', Hn in *.
      repeat split; try reflexivity; try lia.
    + destruct (Hfail eq_refl) as (Hc & Hk).
      assert (0 <= insert_count w1 < batch_commit_size w1) as Hcount1
        by (rewrite Hn, Hc; lia).
      destruct (IH w1 s (f + 1) Hcount1)
        as (w' & s' & f' & Hloop & Hn' & Hc' & Hlaw' & Hs & Hf & Hsum).
      exists w', s', f'. rewrite Hloop, Hn', Hn in *.
      rewrite Hc, Hk in Hlaw'.
      repeat split; try reflexivity; try lia.
Qed.

(** When no INSERT is refused either, every row ends up committed or in
    the open transaction, in input order. *)
Hypothesis inserts_go_through : forall k c, execute_ok k c = true.

Lemma insert_loop_keeps_rows (chunks : list chunk) :
  forall (w : writer) (s f : Z),
  exists w' s' f',
    insert_loop execute_ok commit_ok chunks s f w = (w', Ok (s', f'))
    /\ (committed (conn w') ++ pending (conn w')
        = committed (conn w) ++ pending (conn w) ++ chunks)%list
    /\ f' = f.
Proof.
  induction chunks as [|c rest IH]; intros w s f.
  - exists w, s, f. cbn [insert_loop]. unfold ret.
    now rewrite !app_nil_r.
  - assert (exists w1,
               insert_chunk execute_ok commit_ok c w = (w1, Ok true)
               /\ (committed (conn w1) ++ pending (conn w1)
                   = committed (conn w) ++ pending (conn w) ++ [c])%list)
      as (w1 & Hrun & Hrows).
    { rewrite insert_chunk_eq, inserts_go_through, commits_go_through.
      destruct (insert_count w + 1 >=? batch_commit_size w).
      - exists (commit_done (executed w c)). split; [reflexivity|].
        cbn. unfold list_append. now rewrite app_nil_r.
      - exists (executed w c). split; [reflexivity|].
        cbn. reflexivity. }
    rewrite (insert_loop_cons c rest s f w w1 true Hrun).
    destruct (IH w1 (s + 1) f) as (w' & s' & f' & Hloop & Hrows' & Hf).
    exists w', s', f'. rewrite Hloop, Hrows', app_assoc, Hrows.
    repeat split; try assumption.
    now rewrite <- !app_assoc.
Qed.

End Port.

(** *** Arithmetic of the counter *)

Lemma quotient_and_rest (s N q r : Z) :
  0 <= r < N -> s = q * N + r -> q = s / N /\ r = s mod N.
Proof.
  intros Hr Hs. split.
  - apply (Z.div_unique s N q r); [now left | lia].
  - apply (Z.mod_unique s N q r); [now left | lia].
Qed.

Lemma next_is_multiple (s N q r : Z) :
  0 <= r < N -> s = q * N + r -> ((s + 1) mod N = 0 <-> r + 1 = N).
Proof.
  intros Hr Hs. split.
  - intros Hmod.
    destruct (Z.eq_dec (r + 1) N) as [Heq | Hne]; [assumption|].
    assert (r + 1 = (s + 1) mod N) as Hrest
      by (apply (Z.mod_unique (s + 1) N q (r + 1)); [left; lia | lia]).
    lia.
  - intros Heq. symmetry.
    apply (Z.mod_unique (s + 1) N (q + 1) 0); [left; lia | nia].
Qed.

(** *** Commit checkpoints *)

(** C2: starting from a fresh writer with a positive threshold [N] and a
    database whose commits go through, after any sequence of rows with [s]
    successful writes the loop has issued [s / N] commits and the counter
    is [s mod N]; the next write, when it fails, changes neither; when it
    succeeds, it commits and resets the counter exactly if it is the
    [N]-th success since the last commit. The batch ends with one more
    commit exactly when rows are left over. For 2500 rows and threshold
    1000 there are three commits, after rows 1000 and 2000 and for the
    last 500; when row 1500 alone fails the counts are 2499 and 1 and the
    final commit is still issued. *)
Theorem commit_after_every_nth_success :
  (forall execute_ok commit_ok N chunks,
      0 < N ->
      (forall k, commit_ok k = true) ->
      exists w s f,
        insert_loop execute_ok commit_ok chunks 0 0 (init N) = (w, Ok (s, f))
        /\ 0 <= s /\ 0 <= f /\ s + f = len chunks
        /\ commits (log (conn w)) = s / N
        /\ insert_count w = s mod N
        /\ (forall c, exists w',
              insert_chunk execute_ok commit_ok c w
              = (w', Ok (execute_ok (conn w) c))
              /\ (execute_ok (conn w) c = false ->
                  insert_count w' = insert_count w
                  /\ commits (log (conn w')) = commits (log (conn w)))
              /\ (execute_ok (conn w) c = true ->
                  (s + 1) mod N <> 0 ->
                  insert_count w' = insert_count w + 1
                  /\ commits (log (conn w')) = commits (log (conn w)))
              /\ (execute_ok (conn w) c = true ->
                  (s + 1) mod N = 0 ->
                  insert_count w' = 0
                  /\ commits (log (conn w')) = commits (log (conn w)) + 1))
        /\ exists w_end,
            insert_chunks_batch execute_ok commit_ok chunks (init N)
            = (w_end, Ok {| total := len chunks; success := s; failed := f |})
            /\ insert_count w_end = 0
            /\ commits (log (conn w_end))
               = s / N + (if s mod N >? 0 then 1 else 0))
  /\ (let run :=
        insert_chunks_batch Scenario.accept_all Scenario.commit_always
          (Scenario.rows 1 2500) (init 1000) in
      snd run = Ok {| total := 2500; success := 2500; failed := 0 |}
      /\ commits (log (conn (fst run))) = 3
      /\ log (conn (fst run))
         = (Scenario.inserted 1 1000 ++ [Commit true]
            ++ Scenario.inserted 1001 1000 ++ [Commit true]
            ++ Scenario.inserted 2001 500 ++ [Commit true])%list)
  /\ (let run :=
        insert_chunks_batch (Scenario.refuse_row 1500) Scenario.commit_always
          (Scenario.rows 1 2500) (init 1000) in
      snd run = Ok {| total := 2500; success := 2499; failed := 1 |}
      /\ commits (log (conn (fst run))) = 3
      /\ log (conn (fst run))
         = (Scenario.inserted 1 1000 ++ [Commit true]
            ++ Scenario.inserted 1001 499
            ++ [Execute (Scenario.row 1500) false; Rollback]
            ++ Scenario.inserted 1501 501 ++ [Commit true]
            ++ Scenario.inserted 2002 499 ++ [Commit true])%list).
Proof.
  split; [| split].
  - intros execute_ok commit_ok N chunks HN Hcommit.
    destruct (insert_loop_counts execute_ok commit_ok Hcommit chunks
                (init N) 0 0)
      as (w & s & f & Hloop & Hn & Hcount & Hlaw & Hs & Hf & Hsum);
      [cbn; lia|].
    cbn [init insert_count batch_commit_size conn log commits] in Hn, Hcount, Hlaw.
    assert (s = commits (log (conn w)) * N + insert_count w) as Hdecomp by lia.
    destruct (quotient_and_rest s N _ _ Hcount Hdecomp) as [Hq Hr].
    exists w, s, f.
    split; [exact Hloop|].
    split; [lia|]. split; [lia|]. split; [lia|].
    split; [exact Hq|]. split; [exact Hr|].
    split.
    + intros c.
      destruct (insert_chunk_counts execute_ok commit_ok Hcommit c w)
        as (w' & Hrun & _ & Hfail & Hstep & Hcheckpoint);
        [rewrite Hn; exact Hcount|].
      rewrite Hn in Hstep, Hcheckpoint.
      pose proof (next_is_multiple s N _ _ Hcount Hdecomp) as Hnext.
      exists w'. split; [exact Hrun|].
      split; [exact Hfail|]. split.
      * intros Hok Hmod. apply Hstep; [exact Hok|].
        assert (insert_count w + 1 <> N) by (intros E; apply Hmod, Hnext, E).
        lia.
      * intros Hok Hmod. apply Hnext in Hmod.
        destruct (Hcheckpoint Hok Hmod) as (Hc & Hk & _). now split.
    + rewrite (batch_eq execute_ok commit_ok chunks (init N) w s f Hloop).
      rewrite Hcommit, <- Hr.
      destruct (insert_count w >? 0) eqn:Hpos.
      * exists (commit_done w). split; [reflexivity|].
        cbn -[Z.add]. unfold list_append. rewrite commits_append. lia.
      * exists w. split; [reflexivity|].
        rewrite Z.gtb_ltb in Hpos. apply Z.ltb_ge in Hpos. lia.
  - vm_compute. repeat split.
  - vm_compute. repeat split.
Qed.

Lemma commit_after_every_nth_success_witness :
  exists w s f,
    insert_loop (Scenario.refuse_row 2) Scenario.commit_always
      (Scenario.rows 1 5) 0 0 (init 2)
    = (w, Ok (s, f))
    /\ 0 <= s /\ 0 <= f /\ s + f = len (Scenario.rows 1 5)
    /\ commits (log (conn w)) = s / 2
    /\ insert_count w = s mod 2
    /\ (forall c, exists w',
          insert_chunk (Scenario.refuse_row 2) Scenario.commit_always c w
          = (w', Ok (Scenario.refuse_row 2 (conn w) c))
          /\ (Scenario.refuse_row 2 (conn w) c = false ->
              insert_count w' = insert_count w
              /\ commits (log (conn w')) = commits (log (conn w)))
          /\ (Scenario.refuse_row 2 (conn w) c = true ->
              (s + 1) mod 2 <> 0 ->
              insert_count w' = insert_count w + 1
              /\ commits (log (conn w')) = commits (log (conn w)))
          /\ (Scenario.refuse_row 2 (conn w) c = true ->
              (s + 1) mod 2 = 0 ->
              insert_count w' = 0
              /\ commits (log (conn w')) = commits (log (conn w)) + 1))
    /\ exists w_end,
        insert_chunks_batch (Scenario.refuse_row 2) Scenario.commit_always
          (Scenario.rows 1 5) (init 2)
        = (w_end,
           Ok {| total := len (Scenario.rows 1 5); success := s; failed := f |})
        /\ insert_count w_end = 0
        /\ commits (log (conn w_end))
           = s / 2 + (if s mod 2 >? 0 then 1 else 0).
Proof.
  apply (proj1 commit_after_every_nth_success
           (Scenario.refuse_row 2) Scenario.commit_always 2
           (Scenario.rows 1 5));
    [lia | reflexivity].
Defined.

(** C2, as stated, fails when a commit is refused: with threshold 2 and a
    first commit that is refused, the write of row 2 reports failure and
    yet has moved the counter from 1 to 2, and the three rows, two of
    them written successfully, see two commits issued, after rows 2 and
    3, where one commit for every second success would be one. *)
Lemma refused_commit_breaks_the_counting :
  let w1 :=
    fst (insert_chunk Scenario.accept_all Scenario.commit_after_first
           (Scenario.row 1) (init 2)) in
  let second :=
    insert_chunk Scenario.accept_all Scenario.commit_after_first
      (Scenario.row 2) w1 in
  let loop :=
    insert_loop Scenario.accept_all Scenario.commit_after_first
      (Scenario.rows 1 3) 0 0 (init 2) in
  insert_count w1 = 1
  /\ snd second = Ok false
  /\ insert_count (fst second) = 2
  /\ snd loop = Ok (2, 1)
  /\ commits (log (conn (fst loop))) = 2
  /\ log (conn (fst loop))
     = [Execute (Scenario.row 1) true;
        Execute (Scenario.row 2) true; Commit false; Rollback; Rollback;
        Execute (Scenario.row 3) true; Commit true].
Proof.
  vm_compute. repeat split.
Qed.

(** *** No row left pending *)

(** C3, as stated, fails: with the default threshold, the write of row 1
    reports success, the refusal of row 2 rolls the open transaction back,
    and after the batch and the disconnect row 1 is not in the table,
    although the batch counts two successes. *)
Lemma successful_write_lost_by_later_rollback :
  let batch :=
    insert_chunks_batch (Scenario.refuse_row 2) Scenario.commit_always
      (Scenario.rows 1 3) (init 1000) in
  let after_close := disconnect Scenario.commit_always (fst batch) in
  snd (insert_chunk (Scenario.refuse_row 2) Scenario.commit_always
         (Scenario.row 1) (init 1000))
  = Ok true
  /\ snd batch = Ok {| total := 3; success := 2; failed := 1 |}
  /\ snd after_close = Ok tt
  /\ committed (conn (fst after_close)) = [Scenario.row 3]
  /\ (In (Scenario.row 1) (committed (conn (fst after_close))) -> False).
Proof.
  vm_compute. repeat split.
  intros [H | []]. discriminate H.
Qed.

(** C3, amended: when [insert_chunks_batch] returns, a final commit has
    been issued if the counter was positive after the loop, and the rows
    that were pending after the loop are in the table: the open
    transaction holds no row and the counter is zero. [disconnect]
    commits the pending rows in the same way before it closes the
    connection. With commits that go through both return, and when no
    write fails every row of the batch is in the table at return. Rows
    rolled back by a later failure are not covered. *)
Theorem pending_rows_are_committed_at_return
    (execute_ok : connection -> chunk -> bool)
    (commit_ok : connection -> bool) :
  (forall chunks w w' st,
      consistent w ->
      insert_chunks_batch execute_ok commit_ok chunks w = (w', Ok st) ->
      exists w1,
        insert_loop execute_ok commit_ok chunks 0 0 w
        = (w1, Ok (success st, failed st))
        /\ committed (conn w')
           = (committed (conn w1) ++ pending (conn w1))%list
        /\ pending (conn w') = []
        /\ insert_count w' = 0
        /\ (insert_count w1 > 0 ->
            log (conn w') = (log (conn w1) ++ [Commit true])%list)
        /\ (insert_count w1 <= 0 -> w' = w1))
  /\ (forall w w',
        consistent w ->
        disconnect commit_ok w = (w', Ok tt) ->
        committed (conn w') = (committed (conn w) ++ pending (conn w))%list
        /\ pending (conn w') = []
        /\ (insert_count w > 0 ->
            log (conn w') = (log (conn w) ++ [Commit true; Close])%list)
        /\ (insert_count w <= 0 ->
            log (conn w') = (log (conn w) ++ [Close])%list))
  /\ ((forall k, commit_ok k = true) ->
      forall chunks w,
        (exists w' st,
            insert_chunks_batch execute_ok commit_ok chunks w = (w', Ok st))
        /\ exists w', disconnect commit_ok w = (w', Ok tt))
  /\ ((forall k, commit_ok k = true) ->
      (forall k c, execute_ok k c = true) ->
      forall chunks w,
        consistent w ->
        exists w',
          insert_chunks_batch execute_ok commit_ok chunks w
          = (w', Ok {| total := len chunks; success := len chunks;
                       failed := 0 |})
          /\ committed (conn w')
             = (committed (conn w) ++ pending (conn w) ++ chunks)%list).
Proof.
  split; [| split; [| split]].
  - intros chunks w w' st Hw Hrun.
    destruct (insert_loop_keeps execute_ok commit_ok chunks w 0 0)
      as (w1 & s & f & more & Hloop & _ & _ & _ & _ & _ & _ & _ & Hcons).
    specialize (Hcons Hw). unfold consistent in Hcons.
    rewrite (batch_eq execute_ok commit_ok chunks w w1 s f Hloop) in Hrun.
    exists w1.
    destruct (insert_count w1 >? 0) eqn:Hpos.
    + destruct (commit_ok (conn w1)); [| discriminate].
      injection Hrun as <- <-. cbn [success failed].
      split; [exact Hloop|].
      rewrite Z.gtb_ltb in Hpos. apply Z.ltb_lt in Hpos.
      cbn. unfold list_append. repeat split. lia.
    + injection Hrun as <- <-. cbn [success failed].
      rewrite Z.gtb_ltb in Hpos. apply Z.ltb_ge in Hpos.
      pose proof (len_nonneg (pending (conn w1))).
      assert (pending (conn w1) = []) as Hnone by (apply len_zero; lia).
      split; [exact Hloop|].
      rewrite Hnone, app_nil_r. repeat split; lia.
  - intros w w' Hw Hrun. unfold consistent in Hw.
    rewrite disconnect_eq in Hrun.
    destruct (insert_count w >? 0) eqn:Hpos.
    + destruct (commit_ok (conn w)); [| discriminate].
      injection Hrun as <-. cbn. unfold list_append.
      rewrite <- app_assoc.
      rewrite Z.gtb_ltb in Hpos. apply Z.ltb_lt in Hpos.
      repeat split. lia.
    + injection Hrun as <-.
      rewrite Z.gtb_ltb in Hpos. apply Z.ltb_ge in Hpos.
      pose proof (len_nonneg (pending (conn w))).
      assert (pending (conn w) = []) as Hnone by (apply len_zero; lia).
      cbn. rewrite Hnone, app_nil_r. repeat split. lia.
  - intros Hcommit chunks w. split.
    + destruct (insert_loop_keeps execute_ok commit_ok chunks w 0 0)
        as (w1 & s & f & more & Hloop & _).
      rewrite (batch_eq execute_ok commit_ok chunks w w1 s f Hloop).
      rewrite Hcommit. destruct (insert_count w1 >? 0); eauto.
    + rewrite disconnect_eq, Hcommit.
      destruct (insert_count w >? 0); eauto.
  - intros Hcommit Hinsert chunks w Hw.
    destruct (insert_loop_keeps_rows execute_ok commit_ok Hcommit Hinsert
                chunks w 0 0)
      as (w1 & s & f & Hloop & Hrows & ->).
    destruct (insert_loop_keeps execute_ok commit_ok chunks w 0 0)
      as (w2 & s2 & f2 & more & Hloop2 & _ & _ & _ & _ & _ & Hsum & _ & Hcons).
    rewrite Hloop in Hloop2. injection Hloop2 as <- <- <-.
    specialize (Hcons Hw). unfold consistent in Hcons.
    rewrite (batch_eq execute_ok commit_ok chunks w w1 s 0 Hloop).
    rewrite Hcommit.
    assert (s = len chunks) as -> by lia.
    destruct (insert_count w1 >? 0) eqn:Hpos.
    + exists (commit_done w1). split; [reflexivity|]. cbn. exact Hrows.
    + exists w1. split; [reflexivity|].
      rewrite Z.gtb_ltb in Hpos. apply Z.ltb_ge in Hpos.
      assert (pending (conn w1) = []) as Hnone by (apply len_zero; lia).
      rewrite Hnone, app_nil_r in Hrows. exact Hrows.
Qed.

Lemma pending_rows_are_committed_at_return_witness :
  exists w1,
    insert_loop (Scenario.refuse_row 2) Scenario.commit_always
      (Scenario.rows 1 3) 0 0 (init 1000)
    = (w1, Ok (success {| total := 3; success := 2; failed := 1 |},
               failed {| total := 3; success := 2; failed := 1 |}))
    /\ committed
         (conn (fst (insert_chunks_batch (Scenario.refuse_row 2)
                       Scenario.commit_always (Scenario.rows 1 3)
                       (init 1000))))
       = (committed (conn w1) ++ pending (conn w1))%list
    /\ pending
         (conn (fst (insert_chunks_batch (Scenario.refuse_row 2)
                       Scenario.commit_always (Scenario.rows 1 3)
                       (init 1000))))
       = []
    /\ insert_count
         (fst (insert_chunks_batch (Scenario.refuse_row 2)
                 Scenario.commit_always (Scenario.rows 1 3) (init 1000)))
       = 0
    /\ (insert_count w1 > 0 ->
        log (conn (fst (insert_chunks_batch (Scenario.refuse_row 2)
                          Scenario.commit_always (Scenario.rows 1 3)
                          (init 1000))))
        = (log (conn w1) ++ [Commit true])%list)
    /\ (insert_count w1 <= 0 ->
        fst (insert_chunks_batch (Scenario.refuse_row 2)
               Scenario.commit_always (Scenario.rows 1 3) (init 1000))
        = w1).
Proof.
  apply (proj1 (pending_rows_are_committed_at_return (Scenario.refuse_row 2)
                  Scenario.commit_always)
           (Scenario.rows 1 3) (init 1000) _
           {| total := 3; success := 2; failed := 1 |});
    [unfold consistent; cbn; lia | vm_compute; reflexivity].
Defined.

(** *** The cumulative counter *)

(** C7 at its failing inputs. Threshold 2, row 2 of 3 refused: the commit
    after row 3 makes one row durable and adds two to [total_inserted].
    Threshold 1000, row 1500 of 2500 refused: [total_inserted] ends at
    2499 with 2000 rows in the table. *)
Theorem total_inserted_counts_rolled_back_rows :
  (let w :=
     fst (insert_chunks_batch (Scenario.refuse_row 2) Scenario.commit_always
            (Scenario.rows 1 3) (init 2)) in
   log (conn w)
   = [Execute (Scenario.row 1) true; Execute (Scenario.row 2) false;
      Rollback; Execute (Scenario.row 3) true; Commit true]
   /\ committed (conn w) = [Scenario.row 3]
   /\ persisted w = 1
   /\ get_statistics w = (2, 1))
  /\ (let w :=
        fst (insert_chunks_batch (Scenario.refuse_row 1500)
               Scenario.commit_always (Scenario.rows 1 2500) (init 1000)) in
      persisted w = 2000
      /\ get_statistics w = (2499, 1)).
Proof.
  split; vm_compute; repeat split.
Qed.

(** *** A commit that is refused *)




End DatabaseWriterFacts.

(** ** The writer over a connection whose rollback can raise *)

Module RollbackPortFacts.
Import PyStr PyStrFacts DatabaseWriter DatabaseWriterFacts.

Section Port.

Variable execute_ok : connection -> chunk -> bool.
Variable commit_ok : connection -> bool.
Variable rollback_ok : connection -> bool.

(** *** The methods, outcome by outcome *)

Lemma commit_eq_r (w : writer) :
  RollbackPort._commit commit_ok rollback_ok w
  = if commit_ok (conn w)
    then (commit_done w, Ok tt)
    else if rollback_ok (conn (commit_refused w))
    then (rolled_back (commit_refused w), Raise Psycopg2Error)
    else (RollbackPort.rollback_refused (commit_refused w),
          Raise Psycopg2Error).
Proof.
  unfold RollbackPort._commit, try_except, mbind, connection_commit,
    RollbackPort.connection_rollback.
  destruct (commit_ok (conn w)); [reflexivity|].
  change (conn (set_conn (record_event (conn w) (Commit false)) w))
    with (conn (commit_refused w)).
  destruct (rollback_ok (conn (commit_refused w))); reflexivity.
Qed.

Lemma insert_chunk_eq_r (c : chunk) (w : writer) :
  RollbackPort.insert_chunk execute_ok commit_ok rollback_ok c w
  = if execute_ok (conn w) c
    then
      if insert_count w + 1 >=? batch_commit_size w
      then
        if commit_ok (conn (executed w c))
        then (commit_done (executed w c), Ok true)
        else if rollback_ok (conn (commit_refused (executed w c)))
        then RollbackPort.handled rollback_ok
               (rolled_back (commit_refused (executed w c)))
        else RollbackPort.handled rollback_ok
               (RollbackPort.rollback_refused
                        (commit_refused (executed w c)))
      else (executed w c, Ok true)
    else RollbackPort.handled rollback_ok (execute_refused w c).
Proof.
  unfold RollbackPort.insert_chunk, try_except.
  match goal with
  | |- context [mbind (RollbackPort.connection_rollback rollback_ok) ?k] =>
      set (handler := mbind (RollbackPort.connection_rollback rollback_ok) k)
  end.
  assert (forall w', handler w' = RollbackPort.handled rollback_ok w')
    as Hhandler.
  { intros w'. subst handler.
    unfold RollbackPort.handled, mbind, RollbackPort.connection_rollback.
    destruct (rollback_ok (conn w')); reflexivity. }
  clearbody handler.
  unfold mbind at 1 2 3. unfold cursor_execute.
  destruct (execute_ok (conn w) c) eqn:He.
  - cbn [modify set_insert_count insert_count batch_commit_size set_conn].
    destruct (insert_count w + 1 >=? batch_commit_size w) eqn:Hn;
      [| reflexivity].
    rewrite commit_eq_r. cbn [conn set_conn set_insert_count].
    change (commit_ok _) with (commit_ok (conn (executed w c))).
    destruct (commit_ok (conn (executed w c))); [reflexivity|].
    change (rollback_ok (conn (commit_refused _)))
      with (rollback_ok (conn (commit_refused (executed w c)))).
    destruct (rollback_ok (conn (commit_refused (executed w c))));
      rewrite Hhandler; reflexivity.
  - rewrite Hhandler. reflexivity.
Qed.

Lemma insert_loop_cons_r (c : chunk) (rest : list chunk) (s f : Z)
    (w w' : writer) (r : result bool) :
  RollbackPort.insert_chunk execute_ok commit_ok rollback_ok c w = (w', r) ->
  RollbackPort.insert_loop execute_ok commit_ok rollback_ok (c :: rest) s f w
  = match r with
    | Ok true =>
        RollbackPort.insert_loop execute_ok commit_ok rollback_ok rest
          (s + 1) f w'
    | Ok false =>
        RollbackPort.insert_loop execute_ok commit_ok rollback_ok rest
          s (f + 1) w'
    | Raise e => (w', Raise e)
    end.
Proof.
  intros H. cbn [RollbackPort.insert_loop]. unfold mbind.
  rewrite H. destruct r as [[|]|e]; reflexivity.
Qed.

(** *** Committed rows stay *)

Lemma handled_keeps_committed (w : writer) :
  committed (conn (fst (RollbackPort.handled rollback_ok w)))
  = committed (conn w).
Proof.
  unfold RollbackPort.handled.
  destruct (rollback_ok (conn w)); reflexivity.
Qed.

Lemma insert_chunk_keeps_committed (c : chunk) (w : writer) :
  exists more,
    committed
      (conn (fst (RollbackPort.insert_chunk execute_ok commit_ok rollback_ok
                    c w)))
    = (committed (conn w) ++ more)%list.
Proof.
  rewrite insert_chunk_eq_r.
  destruct (execute_ok (conn w) c).
  - destruct (insert_count w + 1 >=? batch_commit_size w).
    + destruct (commit_ok (conn (executed w c))).
      * eexists. reflexivity.
      * exists [].
        destruct (rollback_ok (conn (commit_refused (executed w c))));
          rewrite handled_keeps_committed; cbn; now rewrite app_nil_r.
    + exists []. cbn. now rewrite app_nil_r.
  - exists []. rewrite handled_keeps_committed. cbn. now rewrite app_nil_r.
Qed.

Lemma insert_loop_keeps_committed (chunks : list chunk) :
  forall (w : writer) (s f : Z),
  exists more,
    committed
      (conn (fst (RollbackPort.insert_loop execute_ok commit_ok rollback_ok
                    chunks s f w)))
    = (committed (conn w) ++ more)%list.
Proof.
  induction chunks as [|c rest IH]; intros w s f.
  - exists []. cbn. now rewrite app_nil_r.
  - destruct (insert_chunk_keeps_committed c w) as [more1 Hstep].
    destruct (RollbackPort.insert_chunk execute_ok commit_ok rollback_ok c w)
      as [w1 r] eqn:Hrun.
    rewrite (insert_loop_cons_r c rest s f w w1 r Hrun).
    cbn [fst] in Hstep.
    destruct r as [[|]|e].
    + destruct (IH w1 (s + 1) f) as [more Hrest].
      exists (more1 ++ more)%list. now rewrite Hrest, Hstep, app_assoc.
    + destruct (IH w1 s (f + 1)) as [more Hrest].
      exists (more1 ++ more)%list. now rewrite Hrest, Hstep, app_assoc.
    + exists more1. exact Hstep.
Qed.

(** *** When every rollback goes through *)

Hypothesis rollbacks_go_through : forall k, rollback_ok k = true.

Lemma insert_chunk_agrees (c : chunk) (w : writer) :
  RollbackPort.insert_chunk execute_ok commit_ok rollback_ok c w
  = DatabaseWriter.insert_chunk execute_ok commit_ok c w.
Proof.
  rewrite insert_chunk_eq_r, insert_chunk_eq. unfold RollbackPort.handled.
  now rewrite !rollbacks_go_through.
Qed.

Lemma insert_loop_agrees (chunks : list chunk) :
  forall (w : writer) (s f : Z),
  RollbackPort.insert_loop execute_ok commit_ok rollback_ok chunks s f w
  = DatabaseWriter.insert_loop execute_ok commit_ok chunks s f w.
Proof.
  induction chunks as [|c rest IH]; intros w s f; [reflexivity|].
  cbn [RollbackPort.insert_loop DatabaseWriter.insert_loop]. unfold mbind.
  rewrite insert_chunk_agrees.
  destruct (DatabaseWriter.insert_chunk execute_ok commit_ok c w)
    as [w1 [[|]|e]]; [apply IH | apply IH | reflexivity].
Qed.

Lemma insert_chunks_batch_agrees (chunks : list chunk) (w : writer) :
  RollbackPort.insert_chunks_batch execute_ok commit_ok rollback_ok chunks w
  = DatabaseWriter.insert_chunks_batch execute_ok commit_ok chunks w.
Proof.
  unfold RollbackPort.insert_chunks_batch, DatabaseWriter.insert_chunks_batch,
    mbind.
  rewrite insert_loop_agrees.
  destruct (DatabaseWriter.insert_loop execute_ok commit_ok chunks 0 0 w)
    as [w1 [counts|e]]; [| reflexivity].
  destruct (insert_count w1 >? 0); [| reflexivity].
  rewrite commit_eq_r, commit_eq, rollbacks_go_through. reflexivity.
Qed.

End Port.

(** *** Failure isolation *)

(** C4, as stated, fails when the rollback itself raises: with a broken
    connection the INSERT of row 2 is refused, the rollback in the
    [except] clause raises, the exception leaves [insert_chunk] and the
    batch: row 3 is never attempted and no statistics are returned. *)
Lemma refused_rollback_aborts_the_batch :
  let run :=
    RollbackPort.insert_chunks_batch (Scenario.refuse_row 2)
      Scenario.commit_always Scenario.rollback_never
      (Scenario.rows 1 3) (init 1000) in
  snd run = Raise Psycopg2Error
  /\ attempts (log (conn (fst run))) = [Scenario.row 1; Scenario.row 2]
  /\ log (conn (fst run))
     = [Execute (Scenario.row 1) true; Execute (Scenario.row 2) false;
        RollbackRefused]
  /\ total_failed (fst run) = 0.
Proof.
  vm_compute. repeat split.
Qed.

(** C4, amended: a write whose INSERT is refused and whose rollback goes
    through rolls back the open transaction only (the committed rows are
    as before, the open transaction is empty), adds one to [total_failed],
    leaves the other counters alone and returns [False]. As long as the
    rollbacks go through the loop goes on whatever else the database
    answers: every row is attempted once, in input order, and with commits
    that go through the batch returns its statistics. Rows once committed
    stay committed on every run, aborted or not. A rollback that raises
    lets the exception out of [insert_chunk] and ends the loop. *)
Theorem failed_write_is_isolated_while_rollbacks_succeed
    (execute_ok : connection -> chunk -> bool)
    (commit_ok rollback_ok : connection -> bool) :
  (forall w c,
      execute_ok (conn w) c = false ->
      rollback_ok (conn (execute_refused w c)) = true ->
      exists w',
        RollbackPort.insert_chunk execute_ok commit_ok rollback_ok c w
        = (w', Ok false)
        /\ committed (conn w') = committed (conn w)
        /\ pending (conn w') = []
        /\ log (conn w')
           = (log (conn w) ++ [Execute c false; Rollback])%list
        /\ total_failed w' = total_failed w + 1
        /\ insert_count w' = insert_count w
        /\ total_inserted w' = total_inserted w)
  /\ ((forall k, rollback_ok k = true) ->
      forall chunks w s f,
        exists w' s' f' more,
          RollbackPort.insert_loop execute_ok commit_ok rollback_ok
            chunks s f w
          = (w', Ok (s', f'))
          /\ attempts (log (conn w'))
             = (attempts (log (conn w)) ++ chunks)%list
          /\ committed (conn w') = (committed (conn w) ++ more)%list
          /\ s <= s' /\ f <= f'
          /\ s' + f' = s + f + len chunks
          /\ total_failed w' = total_failed w + (f' - f))
  /\ ((forall k, rollback_ok k = true) ->
      (forall k, commit_ok k = true) ->
      forall chunks w,
        exists w' st more,
          RollbackPort.insert_chunks_batch execute_ok commit_ok rollback_ok
            chunks w
          = (w', Ok st)
          /\ total st = len chunks
          /\ success st + failed st = len chunks
          /\ attempts (log (conn w'))
             = (attempts (log (conn w)) ++ chunks)%list
          /\ committed (conn w') = (committed (conn w) ++ more)%list)
  /\ (forall chunks w s f,
        exists more,
          committed
            (conn (fst (RollbackPort.insert_loop execute_ok commit_ok
                          rollback_ok chunks s f w)))
          = (committed (conn w) ++ more)%list)
  /\ (forall w c rest s f,
        execute_ok (conn w) c = false ->
        rollback_ok (conn (execute_refused w c)) = false ->
        RollbackPort.insert_chunk execute_ok commit_ok rollback_ok c w
        = (RollbackPort.rollback_refused (execute_refused w c),
           Raise Psycopg2Error)
        /\ RollbackPort.insert_loop execute_ok commit_ok rollback_ok
             (c :: rest) s f w
           = (RollbackPort.rollback_refused (execute_refused w c),
              Raise Psycopg2Error)).
Proof.
  split; [| split; [| split; [| split]]].
  - intros w c Hrefused Hrollback.
    exists (failure_counted (rolled_back (execute_refused w c))).
    rewrite insert_chunk_eq_r, Hrefused.
    unfold RollbackPort.handled. rewrite Hrollback.
    cbn -[Z.add]. unfold list_append. rewrite <- app_assoc.
    repeat split.
  - intros Hrollback chunks w s f.
    rewrite (insert_loop_agrees execute_ok commit_ok rollback_ok Hrollback).
    destruct (insert_loop_keeps execute_ok commit_ok chunks w s f)
      as (w' & s' & f' & more & Hloop & _ & Hatt & Hcom & Hs & Hf & Hsum
          & Hfail & _).
    exists w', s', f', more. repeat split; assumption.
  - intros Hrollback Hcommit chunks w.
    rewrite (insert_chunks_batch_agrees execute_ok commit_ok rollback_ok
               Hrollback).
    destruct (insert_loop_keeps execute_ok commit_ok chunks w 0 0)
      as (w1 & s & f & more & Hloop & _ & Hatt & Hcom & Hs & Hf & Hsum & _).
    rewrite (batch_eq execute_ok commit_ok chunks w w1 s f Hloop), Hcommit.
    destruct (insert_count w1 >? 0).
    + exists (commit_done w1),
        {| total := len chunks; success := s; failed := f |},
        (more ++ pending (conn w1))%list.
      cbn -[Z.add]. unfold list_append.
      rewrite attempts_append, app_nil_r, Hatt, Hcom, <- app_assoc.
      repeat split; lia.
    + exists w1, {| total := len chunks; success := s; failed := f |}, more.
      cbn -[Z.add]. repeat split; try assumption; lia.
  - intros chunks w s f. apply insert_loop_keeps_committed.
  - intros w c rest s f Hrefused Hrollback.
    assert (RollbackPort.insert_chunk execute_ok commit_ok rollback_ok c w
            = (RollbackPort.rollback_refused (execute_refused w c),
               Raise Psycopg2Error)) as Hrun.
    { rewrite insert_chunk_eq_r, Hrefused.
      unfold RollbackPort.handled. now rewrite Hrollback. }
    split; [exact Hrun|].
    now rewrite (insert_loop_cons_r execute_ok commit_ok rollback_ok
                   c rest s f w _ _ Hrun).
Qed.

Lemma failed_write_is_isolated_while_rollbacks_succeed_witness :
  exists w',
    RollbackPort.insert_chunk (Scenario.refuse_row 2) Scenario.commit_always
      Scenario.rollback_always (Scenario.row 2)
      (executed (init 1000) (Scenario.row 1))
    = (w', Ok false)
    /\ committed (conn w')
       = committed (conn (executed (init 1000) (Scenario.row 1)))
    /\ pending (conn w') = []
    /\ log (conn w')
       = (log (conn (executed (init 1000) (Scenario.row 1)))
          ++ [Execute (Scenario.row 2) false; Rollback])%list
    /\ total_failed w'
       = total_failed (executed (init 1000) (Scenario.row 1)) + 1
    /\ insert_count w'
       = insert_count (executed (init 1000) (Scenario.row 1))
    /\ total_inserted w'
       = total_inserted (executed (init 1000) (Scenario.row 1)).
Proof.
  apply (proj1 (failed_write_is_isolated_while_rollbacks_succeed
                  (Scenario.refuse_row 2) Scenario.commit_always
                  Scenario.rollback_always)
           (executed (init 1000) (Scenario.row 1)) (Scenario.row 2));
    reflexivity.
Defined.

End RollbackPortFacts.

(** ** More on chunk assembly *)

Module ChunkGeneratorMore.
Import PyStr PyStrFacts ChunkGenerator ChunkGeneratorFacts.

(** *** Words across whitespace *)

Lemma split_from_empty (cur : string) : split_from cur "" = flush cur.
Proof. reflexivity. Qed.

(** A whitespace character ends the word before it and starts afresh. *)
Lemma split_from_across_space (a b cur : string) (c : ascii) :
  isspace c = true ->
  split_from cur (a ++ String c b) = (split_from cur a ++ split b)%list.
Proof.
  intros Hc. revert cur.
  induction a as [|x a IH]; intros cur; cbn [append split_from].
  - now rewrite Hc.
  - destruct (isspace x).
    + rewrite IH. now rewrite app_assoc.
    + apply IH.
Qed.

Lemma split_across_space (a b : string) (c : ascii) :
  isspace c = true ->
  split (a ++ String c b) = (split a ++ split b)%list.
Proof. apply split_from_across_space. Qed.

Lemma split_leading_space (b : string) (c : ascii) :
  isspace c = true -> split (String c b) = split b.
Proof. intros Hc. unfold split. cbn [split_from]. now rewrite Hc. Qed.

Lemma split_across_delimiter (a b : string) :
  split (a ++ DELIMITER ++ b) = (split a ++ "---" :: split b)%list.
Proof.
  unfold DELIMITER, NL. cbn [append].
  rewrite split_across_space by reflexivity.
  reflexivity.
Qed.

Lemma split_join_delimiter (c : string) (cs : list string) :
  split (join DELIMITER (c :: cs))
  = (split c ++ flat_map (fun x => "---" :: split x) cs)%list.
Proof.
  unfold join. revert c.
  induction cs as [|d cs IH]; intros c.
  - cbn [concat flat_map]. now rewrite app_nil_r.
  - change (concat DELIMITER (c :: d :: cs))
      with (c ++ DELIMITER ++ concat DELIMITER (d :: cs)).
    rewrite split_across_delimiter, IH. reflexivity.
Qed.

(** *** Truncation, word by word *)

Lemma split_truncate (text : string) (max_words : Z) :
  0 <= max_words ->
  split (_truncate_to_words text max_words)
  = firstn (Z.to_nat max_words) (split text).
Proof.
  intros Hk. unfold _truncate_to_words.
  destruct (String.eqb_spec text "") as [-> | Hne].
  - rewrite split_empty. now rewrite firstn_nil.
  - destruct (len (split text) <=? max_words) eqn:E.
    + apply Z.leb_le in E. unfold len in E.
      rewrite firstn_all2 by lia. reflexivity.
    + rewrite list_prefix_nonneg by assumption.
      apply split_join_words, Forall_firstn, split_words.
Qed.

(** X1: for a budget that is not negative, the words of the truncated text
    are the first [max_words] words of the text: truncation drops words
    at the end and changes none, and the word count of the result is the
    smaller of the budget and the word count of the text. *)
Theorem truncate_keeps_word_prefix (text : string) (max_words : Z) :
  0 <= max_words ->
  split (_truncate_to_words text max_words)
  = firstn (Z.to_nat max_words) (split text)
  /\ len (split (_truncate_to_words text max_words))
     = Z.min max_words (len (split text)).
Proof.
  intros Hk. rewrite split_truncate by assumption.
  split; [reflexivity|].
  unfold len. rewrite length_firstn. lia.
Qed.

Lemma truncate_keeps_word_prefix_witness :
  split (_truncate_to_words "one two  three" 2)
  = firstn (Z.to_nat 2) (split "one two  three")
  /\ len (split (_truncate_to_words "one two  three" 2))
     = Z.min 2 (len (split "one two  three")).
Proof. apply truncate_keeps_word_prefix. lia. Defined.

(** X2: truncating a truncated text again with the same budget changes
    nothing. *)
Theorem truncate_idempotent (text : string) (max_words : Z) :
  0 <= max_words ->
  _truncate_to_words (_truncate_to_words text max_words) max_words
  = _truncate_to_words text max_words.
Proof.
  intros Hk. apply truncate_under_budget.
  now apply truncate_spec.
Qed.

Lemma truncate_idempotent_witness :
  _truncate_to_words (_truncate_to_words "one two  three" 2) 2
  = _truncate_to_words "one two  three" 2.
Proof. apply truncate_idempotent. lia. Defined.

(** X3: a negative budget is read as a slice bound: a text that is not
    empty loses its last [- max_words] words and is joined by single
    spaces, so its word count, [max 0 (n + max_words)], is above the
    budget. *)
Theorem truncate_negative_budget (text : string) (max_words : Z) :
  max_words < 0 ->
  text <> "" ->
  _truncate_to_words text max_words
  = join " " (firstn (Z.to_nat (len (split text) + max_words)) (split text))
  /\ len (split (_truncate_to_words text max_words))
     = Z.max 0 (len (split text) + max_words).
Proof.
  intros Hk Hne. unfold _truncate_to_words.
  destruct (String.eqb_spec text "") as [-> | _]; [congruence|].
  pose proof (len_nonneg (split text)) as Hlen.
  destruct (len (split text) <=? max_words) eqn:E;
    [apply Z.leb_le in E; lia|].
  unfold list_prefix.
  destruct (0 <=? max_words) eqn:E0; [apply Z.leb_le in E0; lia|].
  split; [reflexivity|].
  rewrite split_join_words by apply Forall_firstn, split_words.
  unfold len in *. rewrite length_firstn. lia.
Qed.

Lemma truncate_negative_budget_witness :
  _truncate_to_words "one two three" (-1)
  = join " " (firstn (Z.to_nat (len (split "one two three") + -1))
                (split "one two three"))
  /\ len (split (_truncate_to_words "one two three" (-1)))
     = Z.max 0 (len (split "one two three") + -1).
Proof.
  apply truncate_negative_budget; [lia | discriminate].
Defined.

(** *** The words of the full text *)

Lemma delimiter_words (p : post) (cs : list comment) :
  assembly_fails p cs = false ->
  exists ap rest text,
    full_text p cs = Ok text
    /\ split text
       = (split (metadata p ap)
          ++ flat_map (fun x => "---" :: split x) rest)%list.
Proof.
  intros Hgood.
  pose proof (build_components_spec p cs Hgood) as Hb.
  unfold all_sections in Hb. cbn [filter] in Hb.
  change (present p cs Metadata) with true in Hb. cbv iota in Hb.
  cbn [map section_text] in Hb.
  eexists. eexists. eexists.
  split; [unfold full_text; rewrite Hb; reflexivity|].
  apply split_join_delimiter.
Qed.

(** X4: in the joined text every section keeps its own words and each
    delimiter between two sections counts as one more word, the rule
    [---]. *)
Theorem delimiter_costs_one_word (p : post) (cs : list comment) :
  assembly_fails p cs = false ->
  exists first rest text,
    build_components p cs = Ok (first :: rest)
    /\ full_text p cs = Ok text
    /\ split text
       = (split first ++ flat_map (fun x => "---" :: split x) rest)%list.
Proof.
  intros Hgood.
  pose proof (build_components_spec p cs Hgood) as Hb.
  unfold all_sections in Hb. cbn [filter] in Hb.
  change (present p cs Metadata) with true in Hb. cbv iota in Hb.
  cbn [map] in Hb.
  eexists. eexists. eexists.
  split; [exact Hb|].
  split; [unfold full_text; rewrite Hb; reflexivity|].
  apply split_join_delimiter.
Qed.

Lemma delimiter_costs_one_word_witness :
  exists first rest text,
    build_components Scenario.post1 Scenario.comments3 = Ok (first :: rest)
    /\ full_text Scenario.post1 Scenario.comments3 = Ok text
    /\ split text
       = (split first ++ flat_map (fun x => "---" :: split x) rest)%list.
Proof.
  apply (delimiter_costs_one_word Scenario.post1 Scenario.comments3).
  reflexivity.
Defined.

Lemma metadata_first_word (p : post) (ap : string) :
  exists tail, split (metadata p ap) = "metadata:" :: tail.
Proof.
  unfold metadata.
  change ("metadata: [Post_id: " ++ ?x)
    with ("metadata:" ++ String " " ("[Post_id: " ++ x)).
  rewrite split_across_space by reflexivity.
  eexists. reflexivity.
Qed.

(** X5: the text is never empty, and with a budget of at least one word
    the chunk is not empty either and its first word is [metadata:],
    truncated or not. *)
Theorem chunk_starts_with_metadata_word (chunk_size : Z) (p : post)
    (cs : list comment) :
  1 <= chunk_size ->
  assembly_fails p cs = false ->
  exists text r,
    full_text p cs = Ok text
    /\ text <> ""
    /\ generate_chunk chunk_size p cs = Ok r
    /\ full_chunk r <> ""
    /\ hd_error (split (full_chunk r)) = Some "metadata:".
Proof.
  intros Hsize Hgood.
  destruct (delimiter_words p cs Hgood) as (ap & rest & text & Htext & Hwords).
  destruct (metadata_first_word p ap) as [tail Htail].
  rewrite Htail in Hwords.
  assert (hd_error (split (_truncate_to_words text chunk_size))
          = Some "metadata:") as Hhead.
  { rewrite split_truncate by lia. rewrite Hwords.
    destruct (Z.to_nat chunk_size) as [|n] eqn:Hn; [lia | reflexivity]. }
  exists text. eexists.
  split; [exact Htext|].
  split; [intros ->; discriminate Hwords|].
  split; [apply generate_chunk_of_text; exact Htext|].
  cbn [full_chunk].
  split; [| exact Hhead].
  intros Hempty. rewrite Hempty in Hhead. discriminate Hhead.
Qed.

Lemma chunk_starts_with_metadata_word_witness :
  exists text r,
    full_text Scenario.post1 Scenario.comments3 = Ok text
    /\ text <> ""
    /\ generate_chunk 1 Scenario.post1 Scenario.comments3 = Ok r
    /\ full_chunk r <> ""
    /\ hd_error (split (full_chunk r)) = Some "metadata:".
Proof.
  apply (chunk_starts_with_metadata_word 1 Scenario.post1 Scenario.comments3);
    [lia | reflexivity].
Defined.

(** *** The comments after the first *)

Lemma strs_of_other_texts (rest : list comment) :
  existsb bad_comment rest = false ->
  strs_of (other_texts rest)
  = Ok (map fmt (filter truthy (map comment_text rest))).
Proof.
  rewrite other_texts_filter.
  induction rest as [|c rest IH]; intros H; [reflexivity|].
  cbn [existsb] in H. apply orb_false_iff in H as [Hc Hr].
  cbn [map filter]. unfold bad_comment in Hc.
  destruct (truthy (comment_text c)) eqn:Ht; [| now apply IH].
  cbn [andb] in Hc. apply negb_false_iff in Hc.
  destruct (comment_text c) as [|s|r t]; try discriminate.
  cbn [strs_of map fmt]. rewrite (IH Hr). reflexivity.
Qed.

Lemma filter_sections_last (p : post) (cs : list comment) :
  present p cs OtherComments = true ->
  exists before,
    filter (present p cs) all_sections = (before ++ [OtherComments])%list.
Proof.
  intros Hlast. unfold all_sections.
  change [Metadata; Title; Question; ImportantAnswer; OtherComments]
    with ([Metadata; Title; Question; ImportantAnswer] ++ [OtherComments])%list.
  rewrite filter_app.
  change (filter (present p cs) [OtherComments])
    with (if present p cs OtherComments then [OtherComments] else []).
  rewrite Hlast. eauto.
Qed.

Lemma other_present_iff_texts (rest : list comment) :
  existsb (fun c => truthy (comment_text c)) rest = true
  <-> map fmt (filter truthy (map comment_text rest)) <> [].
Proof.
  induction rest as [|c rest IH]; cbn [existsb map filter].
  - split; [discriminate | congruence].
  - destruct (truthy (comment_text c)); cbn [orb map].
    + split; [discriminate | reflexivity].
    + exact IH.
Qed.

(** X6: the comments after the first are rendered in the order they
    were passed in, the empty texts left out and nothing else: the last
    section is the label followed by their texts joined by the
    delimiter. *)
Theorem other_comments_keep_input_order (p : post) (c0 : comment)
    (rest : list comment) :
  assembly_fails p (c0 :: rest) = false ->
  let texts := map fmt (filter truthy (map comment_text rest)) in
  other_concat (c0 :: rest) = join DELIMITER texts
  /\ (texts <> [] ->
      exists before,
        build_components p (c0 :: rest)
        = Ok (before
              ++ [("Other comments (priority 3): "
                   ++ join DELIMITER texts)%string])%list)
  /\ (texts = [] ->
      build_components p (c0 :: rest) = build_components p [c0]).
Proof.
  intros Hgood texts.
  assert (bad_author p = false /\ existsb bad_comment rest = false)
    as [Ha Hc] by (now apply orb_false_iff).
  assert (other_concat (c0 :: rest) = join DELIMITER texts) as Hconcat.
  { unfold other_concat, join_vals. cbn [tl].
    now rewrite (strs_of_other_texts rest Hc). }
  split; [exact Hconcat|]. split.
  - intros Hne. apply other_present_iff_texts in Hne.
    destruct (filter_sections_last p (c0 :: rest) Hne) as [before Hfilter].
    rewrite (build_components_spec p (c0 :: rest) Hgood), Hfilter.
    rewrite map_app. cbn [map section_text]. rewrite Hconcat. eauto.
  - intros Hnone.
    assert (existsb (fun c => truthy (comment_text c)) rest = false) as Hex.
    { destruct (existsb (fun c => truthy (comment_text c)) rest) eqn:E;
        [| reflexivity].
      apply other_present_iff_texts in E. contradiction. }
    rewrite (build_components_spec p (c0 :: rest) Hgood).
    rewrite (build_components_spec p [c0])
      by (unfold assembly_fails; cbn; now rewrite Ha).
    unfold all_sections. cbn [filter].
    change (present p (c0 :: rest) OtherComments)
      with (existsb (fun c => truthy (comment_text c)) rest).
    rewrite Hex.
    change (present p [c0] OtherComments) with false.
    change (present p [c0] Title) with (present p (c0 :: rest) Title).
    change (present p [c0] Question) with (present p (c0 :: rest) Question).
    change (present p [c0] ImportantAnswer)
      with (present p (c0 :: rest) ImportantAnswer).
    change (present p [c0] Metadata) with (present p (c0 :: rest) Metadata).
    destruct (present p (c0 :: rest) Metadata),
      (present p (c0 :: rest) Title), (present p (c0 :: rest) Question),
      (present p (c0 :: rest) ImportantAnswer); reflexivity.
Qed.

Lemma other_comments_keep_input_order_witness :
  other_concat Scenario.comments3
  = join DELIMITER
      (map fmt (filter truthy (map comment_text (tl Scenario.comments3)))).
Proof.
  exact (proj1 (other_comments_keep_input_order Scenario.post1
                  (Scenario.comment_of "C1" "A1")
                  (tl Scenario.comments3) eq_refl)).
Defined.

(** *** Batches *)

Lemma batch_is_flat_map (chunk_size : Z) (pairs : list (post * list comment)) :
  generate_chunks_batch chunk_size pairs
  = flat_map (chunk_or_skip chunk_size) pairs.
Proof. unfold generate_chunks_batch. now rewrite chunks_batch_from. Qed.

(** X7: a batch carries nothing over from one post to the next: the
    chunks of two lists of posts put end to end are the chunks of the
    first list followed by the chunks of the second, and a batch never
    returns more chunks than it was given posts. *)
Theorem batch_of_concatenation (chunk_size : Z)
    (first second : list (post * list comment)) :
  generate_chunks_batch chunk_size (first ++ second)
  = (generate_chunks_batch chunk_size first
     ++ generate_chunks_batch chunk_size second)%list
  /\ len (generate_chunks_batch chunk_size first) <= len first.
Proof.
  rewrite !batch_is_flat_map. split; [apply flat_map_app|].
  unfold len. apply inj_le.
  induction first as [|pc first IH]; [apply Nat.le_refl|].
  cbn [flat_map]. rewrite length_app. unfold chunk_or_skip at 1.
  destruct (generate_chunk chunk_size (fst pc) (snd pc)); simpl; lia.
Qed.

(** X8: a comment text that is a truthy object other than a string is
    accepted in first position, where it is formatted into the important
    answer, and makes the assembly raise [TypeError] in any later
    position, where it is handed to [join]. *)
Theorem object_comment_text_first_or_later (chunk_size : Z) (p : post)
    (c : comment) (repr : string) (before after : list comment)
    (c0 : comment) :
  bad_author p = false ->
  comment_texts c = Some (VObj repr true) ->
  (exists sections,
      build_components p [c]
      = Ok (sections
            ++ [("Important answer (priority 2): " ++ repr)%string])%list
      /\ is_ok (generate_chunk chunk_size p [c]) = true)
  /\ generate_chunk chunk_size p (c0 :: before ++ c :: after)
     = Raise TypeError.
Proof.
  intros Ha Hc.
  assert (comment_text c = VObj repr true) as Htext
    by (unfold comment_text; now rewrite Hc).
  split.
  - assert (assembly_fails p [c] = false) as Hgood
      by (unfold assembly_fails; cbn; now rewrite Ha).
    rewrite generate_chunk_defined, Hgood.
    rewrite (build_components_spec p [c] Hgood).
    unfold all_sections. cbn [filter].
    change (present p [c] OtherComments) with false.
    change (present p [c] ImportantAnswer) with (truthy (comment_text c)).
    change (present p [c] Metadata) with true.
    rewrite Htext. cbn [truthy]. cbv iota.
    assert (section_text p [c] (author_field p) (other_concat [c])
              ImportantAnswer
            = "Important answer (priority 2): " ++ repr) as Hsection
      by (cbn [section_text]; now rewrite Htext).
    destruct (present p [c] Title), (present p [c] Question);
      cbn [map]; rewrite Hsection.
    + eexists [_; _; _]. split; reflexivity.
    + eexists [_; _]. split; reflexivity.
    + eexists [_; _]. split; reflexivity.
    + eexists [_]. split; reflexivity.
  - apply generate_chunk_raises. unfold assembly_fails. cbn [tl].
    rewrite existsb_app. cbn [existsb]. unfold bad_comment at 2.
    rewrite Htext. cbn. now rewrite orb_true_r, orb_true_r.
Qed.

Lemma object_comment_text_first_or_later_witness :
  (exists sections,
      build_components Scenario.post1 [Scenario.numeric_comment]
      = Ok (sections
            ++ [("Important answer (priority 2): " ++ "42")%string])%list
      /\ is_ok (generate_chunk 700 Scenario.post1 [Scenario.numeric_comment])
         = true)
  /\ generate_chunk 700 Scenario.post1
       (Scenario.comment_of "C1" "A1"
        :: [] ++ Scenario.numeric_comment :: [])
     = Raise TypeError.
Proof.
  apply (object_comment_text_first_or_later 700 Scenario.post1
           Scenario.numeric_comment "42" [] []
           (Scenario.comment_of "C1" "A1"));
    reflexivity.
Defined.

End ChunkGeneratorMore.

(** ** More on batched persistence *)

Module DatabaseWriterMore.
Import PyStr PyStrFacts DatabaseWriter DatabaseWriterFacts.

(** *** Selections *)

Lemma subseq_refl {A : Type} (l : list A) : subseq l l.
Proof. induction l; constructor; assumption. Qed.

Lemma subseq_empty {A : Type} (l : list A) : subseq [] l.
Proof. induction l; constructor; assumption. Qed.

Lemma subseq_after {A : Type} (pre l1 l2 : list A) :
  subseq l1 l2 -> subseq l1 (pre ++ l2).
Proof. intros H. induction pre; simpl; [assumption | now constructor]. Qed.

Lemma subseq_same_front {A : Type} (pre l1 l2 : list A) :
  subseq l1 l2 -> subseq (pre ++ l1) (pre ++ l2).
Proof. intros H. induction pre; simpl; [assumption | now constructor]. Qed.

Lemma subseq_length {A : Type} (l1 l2 : list A) :
  subseq l1 l2 -> (List.length l1 <= List.length l2)%nat.
Proof. induction 1; simpl; lia. Qed.

Section Port.

Variable execute_ok : connection -> chunk -> bool.
Variable commit_ok : connection -> bool.

(** *** Where the rows of one write go *)

(** One write either adds its row to the open transaction, or commits the
    open transaction with its row, or leaves the open transaction empty
    and the table as it was. *)
Lemma insert_chunk_rows (c : chunk) (w : writer) :
  exists w' b,
    insert_chunk execute_ok commit_ok c w = (w', Ok b)
    /\ ((committed (conn w') = committed (conn w)
         /\ pending (conn w') = (pending (conn w) ++ [c])%list
         /\ insert_count w + 1 < batch_commit_size w)
        \/ (committed (conn w')
            = (committed (conn w) ++ pending (conn w) ++ [c])%list
            /\ pending (conn w') = [])
        \/ (committed (conn w') = committed (conn w)
            /\ pending (conn w') = [])).
Proof.
  rewrite insert_chunk_eq.
  destruct (execute_ok (conn w) c).
  - destruct (insert_count w + 1 >=? batch_commit_size w) eqn:Hn.
    + destruct (commit_ok (conn (executed w c))).
      * exists (commit_done (executed w c)), true.
        split; [reflexivity|]. right. left. split; reflexivity.
      * eexists. exists false.
        split; [reflexivity|]. right. right. split; reflexivity.
    + exists (executed w c), true.
      split; [reflexivity|]. left.
      rewrite Z.geb_leb in Hn. apply Z.leb_gt in Hn.
      repeat split. lia.
  - eexists. exists false.
    split; [reflexivity|]. right. right. split; reflexivity.
Qed.

Lemma insert_loop_rows (chunks : list chunk) :
  forall (w : writer) (s f : Z),
  exists w' s' f' added,
    insert_loop execute_ok commit_ok chunks s f w = (w', Ok (s', f'))
    /\ committed (conn w') = (committed (conn w) ++ added)%list
    /\ subseq (added ++ pending (conn w')) (pending (conn w) ++ chunks).
Proof.
  induction chunks as [|c rest IH]; intros w s f.
  - exists w, s, f, []. cbn [insert_loop]. unfold ret.
    rewrite !app_nil_r. repeat split. apply subseq_refl.
  - destruct (insert_chunk_rows c w) as (w1 & b & Hrun & Hrows).
    rewrite (insert_loop_cons execute_ok commit_ok c rest s f w w1 b Hrun).
    assert (exists w' s' f' added,
               insert_loop execute_ok commit_ok rest
                 (if b then s + 1 else s) (if b then f else f + 1) w1
               = (w', Ok (s', f'))
               /\ committed (conn w') = (committed (conn w1) ++ added)%list
               /\ subseq (added ++ pending (conn w'))
                    (pending (conn w1) ++ rest))
      as (w' & s' & f' & added & Hloop & Hcom & Hsub)
      by apply IH.
    exists w', s', f'.
    destruct Hrows as [(Hc & Hp & _) | [(Hc & Hp) | (Hc & Hp)]];
      rewrite Hc in Hcom; rewrite Hp in Hsub.
    + exists added. split; [destruct b; exact Hloop|].
      split; [exact Hcom|]. now rewrite <- app_assoc in Hsub.
    + exists ((pending (conn w) ++ [c]) ++ added)%list.
      split; [destruct b; exact Hloop|].
      split; [now rewrite Hcom, <- !app_assoc|].
      rewrite <- app_assoc.
      change (pending (conn w) ++ c :: rest)%list
        with (pending (conn w) ++ [c] ++ rest)%list.
      rewrite (app_assoc (pending (conn w)) [c] rest).
      now apply subseq_same_front.
    + exists added. split; [destruct b; exact Hloop|].
      split; [exact Hcom|].
      change (pending (conn w) ++ c :: rest)%list
        with (pending (conn w) ++ [c] ++ rest)%list.
      rewrite app_assoc. now apply subseq_after.
Qed.

Lemma batch_return_state (chunks : list chunk) (w w' : writer) (st : stats) :
  consistent w ->
  insert_chunks_batch execute_ok commit_ok chunks w = (w', Ok st) ->
  exists w1,
    insert_loop execute_ok commit_ok chunks 0 0 w
    = (w1, Ok (success st, failed st))
    /\ total st = len chunks
    /\ pending (conn w') = []
    /\ insert_count w' = 0
    /\ committed (conn w')
       = (committed (conn w1) ++ pending (conn w1))%list
    /\ total_failed w' = total_failed w1.
Proof.
  intros Hw Hrun.
  destruct (insert_loop_keeps execute_ok commit_ok chunks w 0 0)
    as (w1 & s & f & more & Hloop & _ & _ & _ & _ & _ & _ & _ & Hcons).
  specialize (Hcons Hw). unfold consistent in Hcons.
  rewrite (batch_eq execute_ok commit_ok chunks w w1 s f Hloop) in Hrun.
  exists w1.
  destruct (insert_count w1 >? 0) eqn:Hpos.
  - destruct (commit_ok (conn w1)); [| discriminate].
    injection Hrun as <- <-. cbn. repeat split. exact Hloop.
  - injection Hrun as <- <-.
    rewrite Z.gtb_ltb in Hpos. apply Z.ltb_ge in Hpos.
    pose proof (len_nonneg (pending (conn w1))).
    assert (pending (conn w1) = []) as Hnone by (apply len_zero; lia).
    cbn. rewrite Hnone, app_nil_r. repeat split; try assumption. lia.
Qed.

End Port.

(** *** What a batch reports *)

(** X9: when a batch returns, its statistics add up: [total] is the number
    of rows given, [success] and [failed] are not negative and sum to
    [total], and [total_failed] of the writer has grown by [failed]. *)
Theorem batch_statistics_add_up
    (execute_ok : connection -> chunk -> bool)
    (commit_ok : connection -> bool)
    (chunks : list chunk) (w w' : writer) (st : stats) :
  insert_chunks_batch execute_ok commit_ok chunks w = (w', Ok st) ->
  total st = len chunks
  /\ 0 <= success st /\ 0 <= failed st
  /\ success st + failed st = total st
  /\ total_failed w' = total_failed w + failed st
  /\ batch_commit_size w' = batch_commit_size w.
Proof.
  intros Hrun.
  destruct (insert_loop_keeps execute_ok commit_ok chunks w 0 0)
    as (w1 & s & f & more & Hloop & Hn & _ & _ & Hs & Hf & Hsum & Hfail & _).
  rewrite (batch_eq execute_ok commit_ok chunks w w1 s f Hloop) in Hrun.
  destruct (insert_count w1 >? 0).
  - destruct (commit_ok (conn w1)); [| discriminate].
    injection Hrun as <- <-. cbn. repeat split; lia.
  - injection Hrun as <- <-. cbn. repeat split; lia.
Qed.

Lemma batch_statistics_add_up_witness :
  total {| total := 3; success := 2; failed := 1 |}
  = len (Scenario.rows 1 3)
  /\ 0 <= success {| total := 3; success := 2; failed := 1 |}
  /\ 0 <= failed {| total := 3; success := 2; failed := 1 |}
  /\ success {| total := 3; success := 2; failed := 1 |}
     + failed {| total := 3; success := 2; failed := 1 |}
     = total {| total := 3; success := 2; failed := 1 |}
  /\ total_failed
       (fst (insert_chunks_batch (Scenario.refuse_row 2)
               Scenario.commit_always (Scenario.rows 1 3) (init 1000)))
     = total_failed (init 1000)
       + failed {| total := 3; success := 2; failed := 1 |}
  /\ batch_commit_size
       (fst (insert_chunks_batch (Scenario.refuse_row 2)
               Scenario.commit_always (Scenario.rows 1 3) (init 1000)))
     = batch_commit_size (init 1000).
Proof.
  apply (batch_statistics_add_up (Scenario.refuse_row 2)
           Scenario.commit_always (Scenario.rows 1 3) (init 1000)).
  vm_compute. reflexivity.
Defined.

(** *** Which rows reach the table *)

(** X10: the rows a returned batch has added to the table are a selection
    of the rows that were pending before followed by the rows given: no
    other row, none more often than given, all in input order; and no row
    is left in the open transaction. *)
Theorem persisted_rows_are_a_selection
    (execute_ok : connection -> chunk -> bool)
    (commit_ok : connection -> bool)
    (chunks : list chunk) (w w' : writer) (st : stats) :
  consistent w ->
  insert_chunks_batch execute_ok commit_ok chunks w = (w', Ok st) ->
  exists added,
    committed (conn w') = (committed (conn w) ++ added)%list
    /\ subseq added (pending (conn w) ++ chunks)
    /\ pending (conn w') = []
    /\ persisted w' <= persisted w + len (pending (conn w)) + len chunks.
Proof.
  intros Hw Hrun.
  destruct (batch_return_state execute_ok commit_ok chunks w w' st Hw Hrun)
    as (w1 & Hloop & _ & Hnone & _ & Hcom & _).
  destruct (insert_loop_rows execute_ok commit_ok chunks w 0 0)
    as (w2 & s & f & added & Hloop2 & Hadded & Hsub).
  rewrite Hloop in Hloop2. injection Hloop2 as <- _ _.
  exists (added ++ pending (conn w1))%list.
  unfold persisted. rewrite Hcom, Hadded, <- app_assoc.
  repeat split; try assumption.
  apply subseq_length in Hsub.
  unfold len. rewrite !length_app in *. lia.
Qed.

Lemma persisted_rows_are_a_selection_witness :
  exists added,
    committed
      (conn (fst (insert_chunks_batch (Scenario.refuse_row 2)
                    Scenario.commit_always (Scenario.rows 1 3) (init 1000))))
    = (committed (conn (init 1000)) ++ added)%list
    /\ subseq added (pending (conn (init 1000)) ++ Scenario.rows 1 3)
    /\ pending
         (conn (fst (insert_chunks_batch (Scenario.refuse_row 2)
                       Scenario.commit_always (Scenario.rows 1 3)
                       (init 1000))))
       = []
    /\ persisted
         (fst (insert_chunks_batch (Scenario.refuse_row 2)
                 Scenario.commit_always (Scenario.rows 1 3) (init 1000)))
       <= persisted (init 1000) + len (pending (conn (init 1000)))
          + len (Scenario.rows 1 3).
Proof.
  apply (persisted_rows_are_a_selection (Scenario.refuse_row 2)
           Scenario.commit_always (Scenario.rows 1 3) (init 1000) _
           {| total := 3; success := 2; failed := 1 |});
    [unfold consistent; cbn; lia | vm_compute; reflexivity].
Defined.

(** *** What the cumulative counter counts *)

Lemma insert_loop_counts_successes
    (execute_ok : connection -> chunk -> bool)
    (commit_ok : connection -> bool)
    (chunks : list chunk) :
  (forall k, commit_ok k = true) ->
  forall (w : writer) (s f : Z),
  0 <= insert_count w ->
  exists w' s' f',
    insert_loop execute_ok commit_ok chunks s f w = (w', Ok (s', f'))
    /\ 0 <= insert_count w'
    /\ total_inserted w' + insert_count w'
       = total_inserted w + insert_count w + (s' - s).
Proof.
  intros Hcommit.
  induction chunks as [|c rest IH]; intros w s f Hcount.
  - exists w, s, f. cbn [insert_loop]. unfold ret.
    repeat split; try assumption. lia.
  - assert (exists w1 b,
               insert_chunk execute_ok commit_ok c w = (w1, Ok b)
               /\ 0 <= insert_count w1
               /\ total_inserted w1 + insert_count w1
                  = total_inserted w + insert_count w
                    + (if b then 1 else 0))
      as (w1 & b & Hrun & Hcount1 & Hsum1).
    { rewrite insert_chunk_eq.
      destruct (execute_ok (conn w) c).
      - destruct (insert_count w + 1 >=? batch_commit_size w).
        + rewrite Hcommit. exists (commit_done (executed w c)), true.
          cbn -[Z.add]. repeat split; lia.
        + exists (executed w c), true. cbn -[Z.add]. repeat split; lia.
      - eexists. exists false. split; [reflexivity|].
        cbn -[Z.add]. split; lia. }
    rewrite (insert_loop_cons execute_ok commit_ok c rest s f w w1 b Hrun).
    destruct b.
    + destruct (IH w1 (s + 1) f Hcount1) as (w' & s' & f' & Hloop & Hc & Hsum).
      exists w', s', f'. repeat split; try assumption. lia.
    + destruct (IH w1 s (f + 1) Hcount1) as (w' & s' & f' & Hloop & Hc & Hsum).
      exists w', s', f'. repeat split; try assumption. lia.
Qed.

(** X11: with commits that go through, [total_inserted] counts the writes
    that reported success: after a batch it has grown by the counter the
    writer started with plus the [success] of the batch, whether or not a
    rollback dropped some of those rows. *)
Theorem total_inserted_counts_reported_successes
    (execute_ok : connection -> chunk -> bool)
    (commit_ok : connection -> bool)
    (chunks : list chunk) (w : writer) :
  (forall k, commit_ok k = true) ->
  0 <= insert_count w ->
  exists w' st,
    insert_chunks_batch execute_ok commit_ok chunks w = (w', Ok st)
    /\ insert_count w' = 0
    /\ fst (get_statistics w')
       = total_inserted w + insert_count w + success st.
Proof.
  intros Hcommit Hcount.
  destruct (insert_loop_counts_successes execute_ok commit_ok chunks
              Hcommit w 0 0 Hcount)
    as (w1 & s & f & Hloop & Hcount1 & Hsum).
  rewrite (batch_eq execute_ok commit_ok chunks w w1 s f Hloop), Hcommit.
  destruct (insert_count w1 >? 0) eqn:Hpos.
  - eexists. eexists. split; [reflexivity|]. cbn -[Z.add]. split; lia.
  - rewrite Z.gtb_ltb in Hpos. apply Z.ltb_ge in Hpos.
    eexists. eexists. split; [reflexivity|]. cbn -[Z.add]. split; lia.
Qed.

Lemma total_inserted_counts_reported_successes_witness :
  exists w' st,
    insert_chunks_batch (Scenario.refuse_row 2) Scenario.commit_always
      (Scenario.rows 1 3) (init 2)
    = (w', Ok st)
    /\ insert_count w' = 0
    /\ fst (get_statistics w')
       = total_inserted (init 2) + insert_count (init 2) + success st.
Proof.
  apply (total_inserted_counts_reported_successes (Scenario.refuse_row 2)
           Scenario.commit_always (Scenario.rows 1 3) (init 2));
    [reflexivity | cbn; lia].
Defined.

(** *** A threshold of one *)

Lemma insert_loop_autocommit
    (execute_ok : connection -> chunk -> bool)
    (commit_ok : connection -> bool)
    (chunks : list chunk) :
  (forall k, commit_ok k = true) ->
  forall (w : writer) (s f : Z),
  batch_commit_size w <= 1 ->
  insert_count w = 0 ->
  pending (conn w) = [] ->
  exists w' s' f',
    insert_loop execute_ok commit_ok chunks s f w = (w', Ok (s', f'))
    /\ insert_count w' = 0
    /\ pending (conn w') = []
    /\ persisted w' = persisted w + (s' - s)
    /\ total_inserted w' = total_inserted w + (s' - s).
Proof.
  intros Hcommit.
  induction chunks as [|c rest IH]; intros w s f Hn Hcount Hnone.
  - exists w, s, f. cbn [insert_loop]. unfold ret.
    repeat split; try assumption; lia.
  - assert (exists w1 b,
               insert_chunk execute_ok commit_ok c w = (w1, Ok b)
               /\ batch_commit_size w1 <= 1
               /\ insert_count w1 = 0
               /\ pending (conn w1) = []
               /\ persisted w1 = persisted w + (if b then 1 else 0)
               /\ total_inserted w1
                  = total_inserted w + (if b then 1 else 0))
      as (w1 & b & Hrun & Hn1 & Hcount1 & Hnone1 & Hrows1 & Htotal1).
    { rewrite insert_chunk_eq.
      destruct (execute_ok (conn w) c).
      - destruct (insert_count w + 1 >=? batch_commit_size w) eqn:Hreach.
        + rewrite Hcommit. exists (commit_done (executed w c)), true.
          split; [reflexivity|].
          unfold persisted. cbn -[Z.add]. unfold list_append.
          rewrite Hnone, Hcount. cbn [app]. rewrite len_append.
          repeat split; lia.
        + rewrite Z.geb_leb in Hreach. apply Z.leb_gt in Hreach. lia.
      - eexists. exists false. split; [reflexivity|].
        unfold persisted. cbn -[Z.add]. repeat split; lia. }
    rewrite (insert_loop_cons execute_ok commit_ok c rest s f w w1 b Hrun).
    destruct b.
    + destruct (IH w1 (s + 1) f Hn1 Hcount1 Hnone1)
        as (w' & s' & f' & Hloop & Hc & Hp & Hrows & Htotal).
      exists w', s', f'. repeat split; try assumption; lia.
    + destruct (IH w1 s (f + 1) Hn1 Hcount1 Hnone1)
        as (w' & s' & f' & Hloop & Hc & Hp & Hrows & Htotal).
      exists w', s', f'. repeat split; try assumption; lia.
Qed.

(** X12: with a threshold of one (or less) every successful write is
    committed at once: whatever rows are refused, a batch on a writer with
    nothing pending adds exactly [success] rows to the table and exactly
    [success] to [total_inserted], so no reported success is lost. *)
Theorem threshold_one_commits_every_write
    (execute_ok : connection -> chunk -> bool)
    (commit_ok : connection -> bool)
    (chunks : list chunk) (w : writer) :
  (forall k, commit_ok k = true) ->
  batch_commit_size w <= 1 ->
  insert_count w = 0 ->
  pending (conn w) = [] ->
  exists w' st,
    insert_chunks_batch execute_ok commit_ok chunks w = (w', Ok st)
    /\ persisted w' = persisted w + success st
    /\ fst (get_statistics w') = total_inserted w + success st
    /\ pending (conn w') = [].
Proof.
  intros Hcommit Hn Hcount Hnone.
  destruct (insert_loop_autocommit execute_ok commit_ok chunks Hcommit
              w 0 0 Hn Hcount Hnone)
    as (w1 & s & f & Hloop & Hcount1 & Hnone1 & Hrows & Htotal).
  rewrite (batch_eq execute_ok commit_ok chunks w w1 s f Hloop).
  rewrite Hcount1. cbn [Z.gtb Z.compare].
  exists w1. eexists. split; [reflexivity|].
  cbn -[Z.add]. repeat split; try assumption; lia.
Qed.

Lemma threshold_one_commits_every_write_witness :
  exists w' st,
    insert_chunks_batch (Scenario.refuse_row 2) Scenario.commit_always
      (Scenario.rows 1 3) (init 1)
    = (w', Ok st)
    /\ persisted w' = persisted (init 1) + success st
    /\ fst (get_statistics w') = total_inserted (init 1) + success st
    /\ pending (conn w') = [].
Proof.
  apply (threshold_one_commits_every_write (Scenario.refuse_row 2)
           Scenario.commit_always (Scenario.rows 1 3) (init 1));
    [reflexivity | cbn; lia | reflexivity | reflexivity].
Defined.

(** *** How much a rollback can drop *)

Lemma insert_loop_bounds_pending
    (execute_ok : connection -> chunk -> bool)
    (commit_ok : connection -> bool)
    (chunks : list chunk) :
  forall (w : writer) (s f : Z),
  consistent w ->
  len (pending (conn w)) < batch_commit_size w ->
  exists w' s' f',
    insert_loop execute_ok commit_ok chunks s f w = (w', Ok (s', f'))
    /\ batch_commit_size w' = batch_commit_size w
    /\ consistent w'
    /\ len (pending (conn w')) < batch_commit_size w.
Proof.
  induction chunks as [|c rest IH]; intros w s f Hw Hbound.
  - exists w, s, f. cbn [insert_loop]. unfold ret. repeat split; assumption.
  - destruct (insert_chunk_keeps execute_ok commit_ok c w)
      as (w1 & b & more & Hrun & Hn & _ & _ & _ & Hcons).
    destruct (insert_chunk_rows execute_ok commit_ok c w)
      as (w2 & b2 & Hrun2 & Hrows).
    rewrite Hrun in Hrun2. injection Hrun2 as <- <-.
    specialize (Hcons Hw).
    assert (len (pending (conn w1)) < batch_commit_size w1) as Hbound1.
    { rewrite Hn. unfold consistent in Hw.
      destruct Hrows as [(_ & Hp & Hlow) | [(_ & Hp) | (_ & Hp)]];
        rewrite Hp; [rewrite len_append; lia | |];
        unfold len; simpl; unfold len in Hbound; lia. }
    rewrite (insert_loop_cons execute_ok commit_ok c rest s f w w1 b Hrun).
    destruct b.
    + destruct (IH w1 (s + 1) f Hcons Hbound1)
        as (w' & s' & f' & Hloop & Hn' & Hc & Hb).
      exists w', s', f'. rewrite Hn in *. repeat split; assumption.
    + destruct (IH w1 s (f + 1) Hcons Hbound1)
        as (w' & s' & f' & Hloop & Hn' & Hc & Hb).
      exists w', s', f'. rewrite Hn in *. repeat split; assumption.
Qed.

(** X13: whatever the database answers, the open transaction of a fresh
    writer with threshold [N >= 1] never holds [N] rows between two
    writes, so a refused INSERT drops at most [N - 1] rows that had been
    written successfully, and none that was committed. *)
Theorem rollback_drops_less_than_threshold
    (execute_ok : connection -> chunk -> bool)
    (commit_ok : connection -> bool)
    (N : Z) (chunks : list chunk) :
  1 <= N ->
  exists w s f,
    insert_loop execute_ok commit_ok chunks 0 0 (init N) = (w, Ok (s, f))
    /\ len (pending (conn w)) <= N - 1
    /\ forall c,
         execute_ok (conn w) c = false ->
         exists w',
           insert_chunk execute_ok commit_ok c w = (w', Ok false)
           /\ committed (conn w') = committed (conn w)
           /\ pending (conn w') = []
           /\ persisted w' + len (pending (conn w'))
              >= persisted w + len (pending (conn w)) - (N - 1).
Proof.
  intros HN.
  destruct (insert_loop_bounds_pending execute_ok commit_ok chunks
              (init N) 0 0)
    as (w & s & f & Hloop & Hn & Hcons & Hbound);
    [unfold consistent; cbn; lia | cbn; lia |].
  cbn [init batch_commit_size] in Hbound.
  exists w, s, f. split; [exact Hloop|]. split; [lia|].
  intros c Hrefused.
  exists (failure_counted (rolled_back (execute_refused w c))).
  rewrite insert_chunk_eq, Hrefused.
  unfold persisted. cbn -[Z.add Z.sub].
  repeat split. lia.
Qed.

Lemma rollback_drops_less_than_threshold_witness :
  exists w s f,
    insert_loop (Scenario.refuse_row 2) Scenario.commit_always
      (Scenario.rows 1 1) 0 0 (init 1000)
    = (w, Ok (s, f))
    /\ len (pending (conn w)) <= 1000 - 1
    /\ forall c,
         Scenario.refuse_row 2 (conn w) c = false ->
         exists w',
           insert_chunk (Scenario.refuse_row 2) Scenario.commit_always c w
           = (w', Ok false)
           /\ committed (conn w') = committed (conn w)
           /\ pending (conn w') = []
           /\ persisted w' + len (pending (conn w'))
              >= persisted w + len (pending (conn w)) - (1000 - 1).
Proof.
  apply (rollback_drops_less_than_threshold (Scenario.refuse_row 2)
           Scenario.commit_always 1000 (Scenario.rows 1 1)).
  lia.
Defined.

(** *** Closing after a batch *)

(** X14: after a batch that returned, [disconnect] has nothing left to
    commit: it asks the database for no commit, cannot raise, only closes
    the connection, and the table is as the batch left it. *)
Theorem disconnect_after_batch_only_closes
    (execute_ok : connection -> chunk -> bool)
    (commit_ok : connection -> bool)
    (chunks : list chunk) (w w' : writer) (st : stats) :
  consistent w ->
  insert_chunks_batch execute_ok commit_ok chunks w = (w', Ok st) ->
  disconnect commit_ok w' = (closed w', Ok tt)
  /\ committed (conn (closed w')) = committed (conn w')
  /\ log (conn (closed w')) = (log (conn w') ++ [Close])%list
  /\ get_statistics (closed w') = get_statistics w'.
Proof.
  intros Hw Hrun.
  destruct (batch_return_state execute_ok commit_ok chunks w w' st Hw Hrun)
    as (w1 & _ & _ & _ & Hcount & _).
  rewrite disconnect_eq, Hcount. cbn [Z.gtb Z.compare].
  repeat split.
Qed.

Lemma disconnect_after_batch_only_closes_witness :
  disconnect Scenario.commit_always
    (fst (insert_chunks_batch Scenario.accept_all Scenario.commit_always
            (Scenario.rows 1 3) (init 1000)))
  = (closed
       (fst (insert_chunks_batch Scenario.accept_all Scenario.commit_always
               (Scenario.rows 1 3) (init 1000))),
     Ok tt).
Proof.
  refine (proj1 (disconnect_after_batch_only_closes Scenario.accept_all
                   Scenario.commit_always (Scenario.rows 1 3) (init 1000) _
                   {| total := 3; success := 3; failed := 0 |} _ _)).
  - unfold consistent. cbn. lia.
  - vm_compute. reflexivity.
Defined.

End DatabaseWriterMore.

(** ** The handler *)

Module LambdaFunctionFacts.
Import PyStr PyStrFacts ChunkGenerator ChunkGeneratorFacts.
Import DatabaseWriter DatabaseWriterFacts DatabaseWriterMore LambdaFunction.

(** *** The assembly loop *)

Lemma generate_chunk_raise_is_type_error (chunk_size : Z) (p : post)
    (cs : list comment) (e : exn) :
  generate_chunk chunk_size p cs = Raise e ->
  assembly_fails p cs = true /\ e = TypeError.
Proof.
  intros Hraise.
  pose proof (generate_chunk_defined chunk_size p cs) as Hdef.
  rewrite Hraise in Hdef. cbn [is_ok] in Hdef.
  assert (assembly_fails p cs = true) as Hfail
    by (destruct (assembly_fails p cs); [reflexivity | discriminate]).
  split; [exact Hfail|].
  rewrite (generate_chunk_raises chunk_size p cs Hfail) in Hraise.
  congruence.
Qed.

(** What the loop returns: one chunk per post, in order, each assembled
    from the comments the reader gave for that post. *)
Lemma process_posts_returns (env : environment) (chunk_size : Z)
    (posts : list post) :
  forall acc chunks,
  process_posts env chunk_size posts acc = Ok chunks ->
  exists new,
    chunks = (acc ++ new)%list
    /\ Forall2
         (fun p c =>
            exists cs,
              get_comments_for_post env (get (post_id p)) = Ok cs
              /\ generate_chunk chunk_size p cs = Ok c)
         posts new.
Proof.
  induction posts as [|p rest IH]; intros acc chunks Hrun.
  - cbn in Hrun. injection Hrun as <-. exists [].
    rewrite app_nil_r. split; [reflexivity | constructor].
  - cbn [process_posts] in Hrun.
    destruct (get_comments_for_post env (get (post_id p))) as [cs|e] eqn:Hcs;
      [| discriminate].
    cbn [bind] in Hrun.
    destruct (generate_chunk chunk_size p cs) as [c|e] eqn:Hgen;
      [| discriminate].
    cbn [bind] in Hrun.
    destruct (IH _ _ Hrun) as (new & -> & Hall).
    exists (c :: new). unfold list_append. rewrite <- app_assoc.
    split; [reflexivity|].
    constructor; [eauto | assumption].
Qed.

(** When the reader answers for every post and one post cannot be
    assembled, the loop raises [TypeError]. *)
Lemma process_posts_raises (env : environment) (chunk_size : Z)
    (posts : list post) :
  forall acc,
  (forall q, In q posts ->
     exists cs, get_comments_for_post env (get (post_id q)) = Ok cs) ->
  (exists p cs,
      In p posts
      /\ get_comments_for_post env (get (post_id p)) = Ok cs
      /\ assembly_fails p cs = true) ->
  process_posts env chunk_size posts acc = Raise TypeError.
Proof.
  induction posts as [|q rest IH]; intros acc Hread (p & cs & Hin & Hcs & Hbad).
  - contradiction.
  - cbn [process_posts].
    destruct (Hread q (or_introl eq_refl)) as [csq Hcsq].
    rewrite Hcsq. cbn [bind].
    destruct (generate_chunk chunk_size q csq) as [c|e] eqn:Hgen.
    + cbn [bind]. apply IH.
      * intros q' Hq'. apply Hread. now right.
      * destruct Hin as [-> | Hin].
        -- rewrite Hcs in Hcsq. injection Hcsq as <-.
           rewrite (generate_chunk_raises chunk_size p cs Hbad) in Hgen.
           discriminate.
        -- exists p, cs. auto.
    + cbn [bind].
      now destruct (generate_chunk_raise_is_type_error _ _ _ _ Hgen) as [_ ->].
Qed.

(** X15: in the handler the chunks are assembled one by one outside any
    batch: when the reader answers for every post and a single post
    cannot be assembled, the run ends with status 500 reporting the
    [TypeError], the reader is closed, and the writer never connects, so
    no chunk is written, not even those of the posts that were fine. *)
Theorem one_failing_post_aborts_the_run (env : environment)
    (chunk_size N : Z) (posts : list post) (p : post) (cs : list comment) :
  load_config env = Some (chunk_size, N) ->
  reader_connect env = true ->
  verify_tables_exist env = true ->
  get_all_posts env = Ok posts ->
  (forall q, In q posts ->
     exists cs', get_comments_for_post env (get (post_id q)) = Ok cs') ->
  In p posts ->
  get_comments_for_post env (get (post_id p)) = Ok cs ->
  assembly_fails p cs = true ->
  lambda_handler env
  = {| answer := Failed (Raised TypeError);
       reader_end := Closed;
       writer_end := None |}
  /\ statusCode (answer (lambda_handler env)) = 500.
Proof.
  intros Hconfig Hconnect Htables Hposts Hread Hin Hcs Hbad.
  assert (lambda_handler env
          = {| answer := Failed (Raised TypeError);
               reader_end := Closed;
               writer_end := None |}) as Hrun.
  { unfold lambda_handler.
    rewrite Hconfig, Hconnect, Htables, Hposts. cbn [negb].
    destruct posts as [|q rest]; [contradiction|].
    rewrite (process_posts_raises env chunk_size (q :: rest) [] Hread)
      by (exists p, cs; auto).
    reflexivity. }
  split; [exact Hrun | now rewrite Hrun].
Qed.

Lemma one_failing_post_aborts_the_run_witness :
  lambda_handler Scenario.two_posts_one_bad
  = {| answer := Failed (Raised TypeError);
       reader_end := Closed;
       writer_end := None |}
  /\ statusCode (answer (lambda_handler Scenario.two_posts_one_bad)) = 500.
Proof.
  apply (one_failing_post_aborts_the_run Scenario.two_posts_one_bad
           700 1000 [Scenario.post1; Scenario.post_numeric_author]
           Scenario.post_numeric_author Scenario.comments3);
    try reflexivity.
  - intros q _. exists Scenario.comments3. reflexivity.
  - right. left. reflexivity.
Defined.

(** *** When the writer is used *)

Lemma clean_up_without_writer (env : environment) (e : cause)
    (r : reader_state) :
  writer_end (clean_up env e r None) = None.
Proof. reflexivity. Qed.

Lemma batch_keeps_threshold
    (execute_ok : connection -> chunk -> bool)
    (commit_ok : connection -> bool) (chunks : list chunk) (w : writer) :
  batch_commit_size (fst (insert_chunks_batch execute_ok commit_ok chunks w))
  = batch_commit_size w.
Proof.
  destruct (insert_loop_keeps execute_ok commit_ok chunks w 0 0)
    as (w1 & s & f & more & Hloop & Hn & _).
  rewrite (batch_eq execute_ok commit_ok chunks w w1 s f Hloop).
  destruct (insert_count w1 >? 0); [| exact Hn].
  destruct (commit_ok (conn w1)); exact Hn.
Qed.

Lemma disconnect_keeps_threshold (commit_ok : connection -> bool)
    (w : writer) :
  batch_commit_size (fst (disconnect commit_ok w)) = batch_commit_size w.
Proof.
  rewrite disconnect_eq.
  destruct (insert_count w >? 0); [| reflexivity].
  destruct (commit_ok (conn w)); reflexivity.
Qed.

Lemma write_chunks_outcome (env : environment) (N n : Z)
    (chunks : list chunk) :
  reader_end (write_chunks env N n chunks) = Closed
  /\ forall w,
       writer_end (write_chunks env N n chunks) = Some w ->
       exists rows,
         writer_connect env = Some rows /\ batch_commit_size w = N.
Proof.
  unfold write_chunks.
  destruct (writer_connect env) as [rows|];
    [| split; [reflexivity | discriminate]].
  destruct (verify_table_exists env); cbn [negb].
  - pose proof (batch_keeps_threshold (execute_ok env) (commit_ok env)
                  chunks (connected N rows)) as Hbatch.
    destruct (insert_chunks_batch (execute_ok env) (commit_ok env) chunks
                (connected N rows)) as [w1 [st|e]];
      cbn [fst connected batch_commit_size] in Hbatch.
    + pose proof (disconnect_keeps_threshold (commit_ok env) w1) as Hclose.
      destruct (disconnect (commit_ok env) w1) as [w2 [u|e]];
        cbn [fst] in Hclose.
      * split; [reflexivity|]. intros w Hw. injection Hw as <-.
        exists rows. split; [reflexivity | congruence].
      * split; [reflexivity|]. intros w Hw. cbn in Hw. injection Hw as <-.
        exists rows. split; [reflexivity|].
        rewrite disconnect_keeps_threshold. congruence.
    + split; [reflexivity|]. intros w Hw. cbn in Hw. injection Hw as <-.
      exists rows. split; [reflexivity|].
      rewrite disconnect_keeps_threshold. exact Hbatch.
  - split; [reflexivity|]. intros w Hw. injection Hw as <-.
    exists rows. split; reflexivity.
Qed.

(** X16: the handler connects the writer only after every post has been
    assembled: whenever it leaves a writer behind, the configuration was
    loaded, the reader connected and found its tables, the reader returned
    at least one post, the loop produced one chunk per post, and the
    reader has been closed. With no post, with missing source tables or
    after any earlier exception no writer exists and nothing is written. *)
Theorem writer_used_only_after_full_assembly (env : environment)
    (w : writer) :
  writer_end (lambda_handler env) = Some w ->
  exists chunk_size N posts chunks rows,
    load_config env = Some (chunk_size, N)
    /\ reader_connect env = true
    /\ verify_tables_exist env = true
    /\ get_all_posts env = Ok posts
    /\ posts <> []
    /\ process_posts env chunk_size posts [] = Ok chunks
    /\ len chunks = len posts
    /\ writer_connect env = Some rows
    /\ batch_commit_size w = N
    /\ reader_end (lambda_handler env) = Closed.
Proof.
  unfold lambda_handler.
  destruct (load_config env) as [[chunk_size N]|]; [| discriminate].
  destruct (reader_connect env); [| discriminate].
  destruct (verify_tables_exist env); [| discriminate].
  cbn [negb].
  destruct (get_all_posts env) as [posts|e]; [| discriminate].
  destruct posts as [|p rest]; [discriminate|].
  destruct (process_posts env chunk_size (p :: rest) []) as [chunks|e] eqn:Hrun;
    [| discriminate].
  intros Hend.
  destruct (write_chunks_outcome env N (len (p :: rest)) chunks)
    as [Hreader Hwriter].
  destruct (Hwriter w Hend) as (rows & Hrows & Hn).
  destruct (process_posts_returns env chunk_size (p :: rest) [] chunks Hrun)
    as (new & -> & Hall).
  exists chunk_size, N, (p :: rest), ([] ++ new)%list, rows.
  repeat split; try reflexivity; try assumption; try discriminate.
  unfold len. cbn [app]. now rewrite (Forall2_length Hall).
Qed.

Lemma writer_used_only_after_full_assembly_witness :
  exists chunk_size N posts chunks rows,
    load_config Scenario.one_good_post = Some (chunk_size, N)
    /\ reader_connect Scenario.one_good_post = true
    /\ verify_tables_exist Scenario.one_good_post = true
    /\ get_all_posts Scenario.one_good_post = Ok posts
    /\ posts <> []
    /\ process_posts Scenario.one_good_post chunk_size posts [] = Ok chunks
    /\ len chunks = len posts
    /\ writer_connect Scenario.one_good_post = Some rows
    /\ batch_commit_size
         (match writer_end (lambda_handler Scenario.one_good_post) with
          | Some w => w
          | None => init 0
          end)
       = N
    /\ reader_end (lambda_handler Scenario.one_good_post) = Closed.
Proof.
  apply (writer_used_only_after_full_assembly Scenario.one_good_post).
  vm_compute. reflexivity.
Defined.

(** *** The response of a completed run *)

Lemma write_chunks_completed (env : environment) (N n : Z)
    (chunks : list chunk) (n' c f t : Z) :
  answer (write_chunks env N n chunks) = Completed n' c f t ->
  exists rows w1 st,
    writer_connect env = Some rows
    /\ insert_chunks_batch (execute_ok env) (commit_ok env) chunks
         (connected N rows)
       = (w1, Ok st)
    /\ n' = n /\ c = success st /\ f = failed st /\ t = total st
    /\ writer_end (write_chunks env N n chunks) = Some (closed w1).
Proof.
  unfold write_chunks.
  destruct (writer_connect env) as [rows|]; [| discriminate].
  destruct (verify_table_exists env); cbn [negb]; [| discriminate].
  destruct (insert_chunks_batch (execute_ok env) (commit_ok env) chunks
              (connected N rows)) as [w1 [st|e]] eqn:Hbatch; [| discriminate].
  assert (consistent (connected N rows)) as Hfresh
    by (unfold consistent; cbn; lia).
  destruct (batch_return_state _ _ _ _ _ _ Hfresh Hbatch)
    as (w0 & _ & _ & _ & Hcount & _).
  rewrite disconnect_eq, Hcount. cbn [Z.gtb Z.compare].
  intros Hanswer. cbn in Hanswer. injection Hanswer as <- <- <- <-.
  exists rows, w1, st. repeat split. exact Hbatch.
Qed.

(** X17: a response [Completed] tells what the batch did: [posts_processed]
    and [total_chunks] are the number of posts the reader returned, one
    chunk was assembled per post from the comments the reader gave for it
    and handed to the database once, in reader order; [chunks_created] and
    [chunks_failed] are not negative and add up to [total_chunks]; the
    writer ends closed with nothing pending, and the table holds the rows
    it held before followed by a selection of those chunks. *)
Theorem completed_response_reports_the_batch (env : environment)
    (n c f t : Z) :
  answer (lambda_handler env) = Completed n c f t ->
  exists chunk_size N posts chunks rows w added,
    load_config env = Some (chunk_size, N)
    /\ get_all_posts env = Ok posts
    /\ n = len posts /\ t = len posts
    /\ 0 <= c /\ 0 <= f /\ c + f = t
    /\ Forall2
         (fun p ch =>
            exists cs,
              get_comments_for_post env (get (post_id p)) = Ok cs
              /\ generate_chunk chunk_size p cs = Ok ch)
         posts chunks
    /\ writer_connect env = Some rows
    /\ writer_end (lambda_handler env) = Some w
    /\ attempts (log (conn w)) = chunks
    /\ pending (conn w) = []
    /\ (exists l, log (conn w) = (l ++ [Close])%list)
    /\ snd (get_statistics w) = f
    /\ committed (conn w) = (rows ++ added)%list
    /\ subseq added chunks.
Proof.
  unfold lambda_handler.
  destruct (load_config env) as [[chunk_size N]|]; [| discriminate].
  destruct (reader_connect env); [| discriminate].
  destruct (verify_tables_exist env); [| discriminate].
  cbn [negb].
  destruct (get_all_posts env) as [posts|e]; [| discriminate].
  destruct posts as [|p rest]; [discriminate|].
  destruct (process_posts env chunk_size (p :: rest) []) as [chunks|e] eqn:Hrun;
    [| discriminate].
  intros Hanswer.
  destruct (write_chunks_completed env N _ chunks n c f t Hanswer)
    as (rows & w1 & st & Hrows & Hbatch & -> & -> & -> & -> & Hend).
  destruct (process_posts_returns env chunk_size (p :: rest) [] chunks Hrun)
    as (new & -> & Hall). cbn [app] in *.
  assert (consistent (connected N rows)) as Hfresh
    by (unfold consistent; cbn; lia).
  destruct (batch_return_state _ _ _ _ _ _ Hfresh Hbatch)
    as (w0 & Hloop & Htotal & Hnone & Hcount & Hcom & Hfailed).
  destruct (insert_loop_keeps (execute_ok env) (commit_ok env) new
              (connected N rows) 0 0)
    as (w2 & s2 & f2 & more & Hloop2 & _ & Hatt & _ & Hs & Hf & Hsum
        & Hfail & _).
  rewrite Hloop in Hloop2. injection Hloop2 as <- <- <-.
  destruct (insert_loop_rows (execute_ok env) (commit_ok env) new
              (connected N rows) 0 0)
    as (w3 & s3 & f3 & added & Hloop3 & Hadded & Hsub).
  rewrite Hloop in Hloop3. injection Hloop3 as <- _ _.
  assert (len new = len (p :: rest)) as Hlen
    by (unfold len; now rewrite (Forall2_length Hall)).
  assert (attempts (log (conn w1)) = new) as Hatt1.
  { destruct (insert_loop_keeps (execute_ok env) (commit_ok env) new
                (connected N rows) 0 0) as (w4 & s4 & f4 & more4 & Hloop4 & _).
    clear more4.
    rewrite (batch_eq _ _ _ _ _ _ _ Hloop4) in Hbatch.
    rewrite Hloop in Hloop4. injection Hloop4 as <- _ _.
    destruct (insert_count w0 >? 0).
    - destruct (commit_ok env (conn w0)); [| discriminate].
      injection Hbatch as <- _. cbn. unfold list_append.
      rewrite attempts_append, app_nil_r. exact Hatt.
    - injection Hbatch as <- _. exact Hatt. }
  exists chunk_size, N, (p :: rest), new, rows, (closed w1),
    (added ++ pending (conn w0))%list.
  cbn [closed conn set_conn log pending committed get_statistics snd
       total_failed].
  unfold list_append. rewrite attempts_append, app_nil_r.
  cbn [connected conn committed pending total_failed] in *.
  rewrite Hcom, Hadded, <- app_assoc.
  repeat split; try reflexivity; try assumption; try lia.
  - eauto.
Qed.

Lemma completed_response_reports_the_batch_witness :
  exists chunk_size N posts chunks rows w added,
    load_config Scenario.one_good_post = Some (chunk_size, N)
    /\ get_all_posts Scenario.one_good_post = Ok posts
    /\ 1 = len posts /\ 1 = len posts
    /\ 0 <= 1 /\ 0 <= 0 /\ 1 + 0 = 1
    /\ Forall2
         (fun p ch =>
            exists cs,
              get_comments_for_post Scenario.one_good_post (get (post_id p))
              = Ok cs
              /\ generate_chunk chunk_size p cs = Ok ch)
         posts chunks
    /\ writer_connect Scenario.one_good_post = Some rows
    /\ writer_end (lambda_handler Scenario.one_good_post) = Some w
    /\ attempts (log (conn w)) = chunks
    /\ pending (conn w) = []
    /\ (exists l, log (conn w) = (l ++ [Close])%list)
    /\ snd (get_statistics w) = 0
    /\ committed (conn w) = (rows ++ added)%list
    /\ subseq added chunks.
Proof.
  apply (completed_response_reports_the_batch Scenario.one_good_post 1 1 0 1).
  vm_compute. reflexivity.
Defined.

(** *** The connections left open *)

(** X18: the handler leaves the reader's connection open in exactly one
    case, the early return for missing source tables, which no clean-up
    follows; on every other path the reader either never connected or has
    been closed. *)
Theorem reader_left_open_only_when_tables_missing (env : environment) :
  reader_end (lambda_handler env) = Open
  <-> answer (lambda_handler env) = TablesMissing.
Proof.
  unfold lambda_handler.
  destruct (load_config env) as [[chunk_size N]|];
    [| split; discriminate].
  destruct (reader_connect env); cbn [negb]; [| split; discriminate].
  destruct (verify_tables_exist env); cbn [negb];
    [| split; reflexivity].
  destruct (get_all_posts env) as [posts|e]; [| split; discriminate].
  destruct posts as [|p rest]; [split; discriminate|].
  destruct (process_posts env chunk_size (p :: rest) []) as [chunks|e];
    [| split; discriminate].
  destruct (write_chunks_outcome env N (len (p :: rest)) chunks)
    as [Hreader _].
  rewrite Hreader. split; [discriminate|].
  unfold write_chunks.
  destruct (writer_connect env) as [rows|]; [| discriminate].
  destruct (verify_table_exists env); cbn [negb]; [| discriminate].
  destruct (insert_chunks_batch (execute_ok env) (commit_ok env) chunks
              (connected N rows)) as [w1 [st|e]]; [| discriminate].
  destruct (disconnect (commit_ok env) w1) as [w2 [u|e]]; discriminate.
Qed.

End LambdaFunctionFacts.
